(** * Tech-Product-Cost-Analyser: the text utilities and the report
      normaliser of [app.py], embedded and verified.

    The development follows the source file top-down: Python strings and
    floats first (the run-time the program relies on), then the regular
    expressions it uses, the JSON reader, and last the functions of [app.py]
    under their own names. *)

From Stdlib Require Import ZArith NArith List Bool Lia String Ascii.
From Stdlib Require Import Floats.SpecFloat.
From Stdlib Require Import Sorting.Sorted.
Import ListNotations.

Set Implicit Arguments.
Set Warnings "-comment-terminator-in-string,-notation-for-abbreviation".


(** ** Python strings

    A [str] is a sequence of Unicode code points.  The en dash of the range
    pattern is one code point (8211), which a byte string would not give. *)
Module PyStr.

Definition char := N.
Definition str := list char.

Definition lit (s : string) : str := map N_of_ascii (list_ascii_of_string s).

Definition dquote : char := 34%N.
Definition squote : char := 39%N.
Definition newline : char := 10%N.
Definition hyphen : char := 45%N.
Definition en_dash : char := 8211%N.
Definition comma : char := 44%N.
Definition dot : char := 46%N.

Definition in_range (lo hi c : N) : bool := ((lo <=? c) && (c <=? hi))%N.

(** [str.isspace] on one code point, which is also what [\s] of a [str]
    pattern and [str.strip()] test. *)
Definition isspace (c : char) : bool :=
  in_range 9 13 c || in_range 28 32 c || (c =? 133)%N || (c =? 160)%N
  || (c =? 5760)%N || in_range 8192 8202 c || (c =? 8232)%N || (c =? 8233)%N
  || (c =? 8239)%N || (c =? 8287)%N || (c =? 12288)%N.

(** First code point of every block of ten decimal digits (category Nd) of
    Unicode 15; [\d] of a [str] pattern, [float()] and [int()] all read the
    digits of these blocks. *)
Definition decimal_zeros : list N :=
  [48; 1632; 1776; 1984; 2406; 2534; 2662; 2790; 2918; 3046; 3174; 3302;
   3430; 3558; 3664; 3792; 3872; 4160; 4240; 6112; 6160; 6470; 6608; 6784;
   6800; 6992; 7088; 7232; 7248; 42528; 43216; 43264; 43472; 43504; 43600;
   44016; 65296; 66720; 68912; 69734; 69872; 69942; 70096; 70384; 70736;
   70864; 71248; 71360; 71472; 71904; 72016; 72784; 73040; 73120; 73552;
   92768; 92864; 93008; 120782; 120792; 120802; 120812; 120822; 123200;
   123632; 124144; 125264; 130032]%N.

Fixpoint decimal_in (zs : list N) (c : char) : option N :=
  match zs with
  | [] => None
  | z :: zs' => if in_range z (z + 9) c then Some (c - z)%N else decimal_in zs' c
  end.

(** The digit value of a decimal digit, [None] for any other code point. *)
Definition decimal_value (c : char) : option N := decimal_in decimal_zeros c.

Definition isdecimal (c : char) : bool :=
  match decimal_value c with Some _ => true | None => false end.

Fixpoint lstrip (s : str) : str :=
  match s with
  | c :: s' => if isspace c then lstrip s' else s
  | [] => []
  end.

Definition rstrip (s : str) : str := rev (lstrip (rev s)).

(** [s.strip()] *)
Definition strip (s : str) : str := rstrip (lstrip s).

(** [s.lower()].  Outside ASCII only U+0130 and U+212A have a lower-case
    form that holds an ASCII letter; the lower-case form of any other
    non-ASCII code point is non-ASCII again, and it is kept as it is here:
    the program only searches the result for ASCII keys. *)
Definition lower_char (c : char) : str :=
  if in_range 65 90 c then [(c + 32)%N]
  else if (c =? 304)%N then [105; 775]%N
  else if (c =? 8490)%N then [107]%N
  else [c].

Definition lower (s : str) : str := flat_map lower_char s.

Fixpoint eqb (a b : str) : bool :=
  match a, b with
  | [], [] => true
  | x :: a', y :: b' => (x =? y)%N && eqb a' b'
  | _, _ => false
  end.

Fixpoint startswith (k s : str) : bool :=
  match k, s with
  | [], _ => true
  | x :: k', y :: s' => (x =? y)%N && startswith k' s'
  | _ :: _, [] => false
  end.

(** [k in s]: [k] occurs in [s] as a substring. *)
Fixpoint contains (k s : str) : bool :=
  startswith k s || match s with [] => false | _ :: s' => contains k s' end.

(** [s.count(c)] for a one-character [c]. *)
Definition count (c : char) (s : str) : nat :=
  List.length (filter (fun x => (x =? c)%N) s).

(** [s.replace(c, r)] for a one-character [c]. *)
Definition replace (c : char) (r : str) (s : str) : str :=
  flat_map (fun x => if (x =? c)%N then r else [x]) s.

End PyStr.

Import PyStr.

(** ** The currency detector *)

Definition USD : str := lit "USD".

(** [CURRENCY_MAP], in the insertion order of the dict literal. *)
Definition CURRENCY_MAP : list (str * str) :=
  [ (lit "india", lit "INR"); (lit "ind", lit "INR"); (lit "saudi", lit "SAR");
    (lit "saudi arabia", lit "SAR"); (lit "kingdom", lit "SAR");
    (lit "uae", lit "AED"); (lit "united arab emirates", lit "AED");
    (lit "united states", lit "USD"); (lit "usa", lit "USD");
    (lit "us", lit "USD"); (lit "america", lit "USD"); (lit "canada", lit "CAD");
    (lit "australia", lit "AUD"); (lit "uk", lit "GBP");
    (lit "united kingdom", lit "GBP"); (lit "germany", lit "EUR");
    (lit "france", lit "EUR"); (lit "europe", lit "EUR");
    (lit "japan", lit "JPY"); (lit "china", lit "CNY"); (lit "pakistan", lit "PKR");
    (lit "bahrain", lit "BHD"); (lit "qatar", lit "QAR"); (lit "oman", lit "OMR") ].

(** The [for k, v in CURRENCY_MAP.items()] loop of [detect_currency_code]. *)
Fixpoint detect_loop (items : list (str * str)) (p : str) : str :=
  match items with
  | [] => USD
  | (k, v) :: rest => if contains k p then v else detect_loop rest p
  end.

Definition detect_currency_code (place : str) : str :=
  match place with
  | [] => USD
  | _ => detect_loop CURRENCY_MAP (lower (strip place))
  end.


(** ** Python floats

    A Python [float] is an IEEE 754 binary64 number: the Standard Library's
    [spec_float] at precision 53 and maximal exponent 1024, with its
    round-to-nearest-even operations. *)
Module PyFloat.

Definition prec : Z := 53.
Definition emax : Z := 1024.

Definition float := spec_float.

Definition zero : float := S754_zero false.
Definition inf : float := S754_infinity false.
Definition nan : float := S754_nan.

Definition add : float -> float -> float := SFadd prec emax.
Definition sub : float -> float -> float := SFsub prec emax.
Definition mul : float -> float -> float := SFmul prec emax.
Definition div : float -> float -> float := SFdiv prec emax.
Definition leb : float -> float -> bool := SFleb.
Definition ltb : float -> float -> bool := SFltb.
Definition eqb : float -> float -> bool := SFeqb.

(** The integer [z] rounded to the nearest float; infinite when [z] is
    beyond the largest float. *)
Definition of_Z (z : Z) : float := binary_normalize prec emax z 0 false.

Definition is_finite (x : float) : bool :=
  match x with
  | S754_zero _ | S754_finite _ _ _ => true
  | _ => false
  end.

(** [float(n)] for a Python int: [None] stands for the OverflowError
    "int too large to convert to float". *)
Definition of_int (z : Z) : option float :=
  let x := of_Z z in if is_finite x then Some x else None.

(** The decimal number [(-1)^neg * m * 10^e] rounded to the nearest float,
    as [float()] and [strtod] read a decimal literal; infinite on overflow. *)
Definition of_decimal (neg : bool) (m : N) (e : Z) : float :=
  match m with
  | N0 => S754_zero neg
  | Npos p =>
      match e with
      | Zneg k => div (S754_finite neg p 0) (S754_finite false (Pos.pow 10 k) 0)
      | _ => binary_round prec emax neg (p * Z.to_pos (10 ^ e))%positive 0
      end
  end.

(** [x * 100] for a finite non-zero [x = m * 2^e], rounded to the nearest
    integer, ties to even. *)
Definition hundredths (m : positive) (e : Z) : N :=
  match e with
  | Zneg k =>
      let num := (Npos m * 100)%N in
      let den := Npos (Pos.pow 2 k) in
      let q := (num / den)%N in
      let r := (num mod den)%N in
      match (2 * r ?= den)%N with
      | Lt => q
      | Gt => (q + 1)%N
      | Eq => if N.even q then q else (q + 1)%N
      end
  | _ => (Npos m * 100 * 2 ^ Z.to_N e)%N
  end.

(** [round(x, 2)]: the decimal with two fractional digits nearest to the
    exact value of [x] (ties to even), read back as a float; infinities and
    NaN round to themselves. *)
Definition round2 (x : float) : float :=
  match x with
  | S754_finite s m e => of_decimal s (hundredths m e) (-2)
  | _ => x
  end.

(** [0 <= x]: neither negative nor NaN. *)
Definition nonneg (x : float) : bool := leb zero x.

End PyFloat.

(** ** Regular expressions

    The four patterns of [app.py] use character classes, concatenation,
    two capture groups and stars over a character class (greedy [*] and
    lazy [*?]).  The matcher is the backtracking one of Python's [re]:
    a greedy star tries the longest run first, a lazy star the shortest,
    and the first alternative that lets the rest of the pattern match wins. *)
Module Re.

Inductive re : Type :=
| Chr (p : char -> bool)                  (* one character of a class *)
| Star (greedy : bool) (p : char -> bool) (* class* or class*? *)
| Seq (r1 r2 : re)
| Group (r : re).                         (* ( r ), captured *)

(** The part of [s] consumed when [rest] is what is left of it. *)
Definition consumed (s rest : str) : str :=
  firstn (List.length s - List.length rest) s.

Section Matcher.
Variable A : Type.

Fixpoint star_greedy (p : char -> bool) (s : str) (k : str -> option A) : option A :=
  match s with
  | c :: s' =>
      if p c then
        match star_greedy p s' k with
        | Some a => Some a
        | None => k s
        end
      else k s
  | [] => k s
  end.

Fixpoint star_lazy (p : char -> bool) (s : str) (k : str -> option A) : option A :=
  match k s with
  | Some a => Some a
  | None =>
      match s with
      | c :: s' => if p c then star_lazy p s' k else None
      | [] => None
      end
  end.

(** [rmatch r s caps k]: match [r] at the start of [s]; [k] is the rest of
    the pattern, called on what is left and on the groups captured so far
    (in the order they close). *)
Fixpoint rmatch (r : re) (s : str) (caps : list str)
    (k : str -> list str -> option A) : option A :=
  match r with
  | Chr p =>
      match s with
      | c :: s' => if p c then k s' caps else None
      | [] => None
      end
  | Star true p => star_greedy p s (fun s' => k s' caps)
  | Star false p => star_lazy p s (fun s' => k s' caps)
  | Seq r1 r2 => rmatch r1 s caps (fun s' caps' => rmatch r2 s' caps' k)
  | Group r1 => rmatch r1 s caps (fun s' caps' => k s' (caps' ++ [consumed s s']))
  end.

End Matcher.

(** A match object: [group()] (the text matched), the groups 1, 2, ..., and
    what follows the match. *)
Record match_obj : Type := { group0 : str; groups : list str; after : str }.

(** [re.match(r, s)] *)
Definition rematch (r : re) (s : str) : option match_obj :=
  rmatch r s [] (fun rest caps =>
    Some {| group0 := consumed s rest; groups := caps; after := rest |}).

(** [re.search(r, s)]: the match at the leftmost position that has one. *)
Fixpoint search (r : re) (s : str) : option match_obj :=
  match rematch r s with
  | Some m => Some m
  | None =>
      match s with
      | _ :: s' => search r s'
      | [] => None
      end
  end.

(** [re.sub(r, repl, s)] for a pattern that matches no empty string: the
    leftmost non-overlapping matches are replaced by [repl].  [fuel] bounds
    the number of positions visited. *)
Fixpoint sub_from (fuel : nat) (r : re) (repl : str) (s : str) : str :=
  match fuel with
  | O => s
  | S fuel' =>
      match s with
      | [] => []
      | c :: s' =>
          match rematch r s with
          | Some m =>
              match group0 m with
              | [] => c :: sub_from fuel' r repl s'
              | _ :: _ => repl ++ sub_from fuel' r repl (after m)
              end
          | None => c :: sub_from fuel' r repl s'
          end
      end
  end.

Definition sub (r : re) (repl : str) (s : str) : str :=
  sub_from (List.length s) r repl s.

(** Character classes *)
Definition is_char (c : char) : char -> bool := fun x => (x =? c)%N.
Definition any_char : char -> bool := fun _ => true.          (* [\s\S] *)
Definition not_newline : char -> bool := fun x => negb (x =? newline)%N. (* . *)
Definition digit : char -> bool := isdecimal.                    (* \d *)
Definition space : char -> bool := isspace.                      (* \s *)
Definition digit_comma_dot : char -> bool :=                     (* [\d,\.] *)
  fun x => isdecimal x || (x =? comma)%N || (x =? dot)%N.
Definition dash : char -> bool :=                                (* [-–] *)
  fun x => (x =? hyphen)%N || (x =? en_dash)%N.

End Re.

(** ** Reading and printing numbers

    [float(s)], [int(s)] and [repr(x)] of the interpreter, on code points. *)
Module PyNum.
Import PyFloat.

Definition ascii_digit (c : char) : option N :=
  if in_range 48 57 c then Some (c - 48)%N else None.

Definition is_ascii_digit (c : char) : bool := in_range 48 57 c.

(** White space of the C locale ([Py_ISSPACE]), which is what [float()] and
    [int()] strip once the string is brought to ASCII. *)
Definition c_isspace (c : char) : bool := in_range 9 13 c || (c =? 32)%N.

(** Non-ASCII white space becomes a blank and a non-ASCII decimal digit its
    ASCII digit; at any other non-ASCII code point the string is cut and ends
    in a question mark, which no number holds. *)
Fixpoint to_ascii_number (s : str) : str :=
  match s with
  | [] => []
  | c :: s' =>
      if (c <? 127)%N then c :: to_ascii_number s'
      else if isspace c then 32%N :: to_ascii_number s'
      else match decimal_value c with
           | Some d => (48 + d)%N :: to_ascii_number s'
           | None => [63%N]
           end
  end.

Fixpoint c_lstrip (s : str) : str :=
  match s with
  | c :: s' => if c_isspace c then c_lstrip s' else s
  | [] => []
  end.

Definition c_strip (s : str) : str := rev (c_lstrip (rev (c_lstrip s))).

(** An underscore may stand between two digits only; [prev] is the
    character before [s]. *)
Fixpoint drop_underscores (prev : char) (s : str) : option str :=
  match s with
  | [] => if (prev =? 95)%N then None else Some []
  | c :: s' =>
      if (c =? 95)%N then
        if is_ascii_digit prev then drop_underscores c s' else None
      else if (prev =? 95)%N && negb (is_ascii_digit c) then None
      else option_map (cons c) (drop_underscores c s')
  end.

(** The longest prefix of ASCII digits, and the rest. *)
Fixpoint span_digits (s : str) : list N * str :=
  match s with
  | c :: s' =>
      match ascii_digit c with
      | Some d => let (ds, rest) := span_digits s' in (d :: ds, rest)
      | None => ([], s)
      end
  | [] => ([], [])
  end.

(** The number a list of decimal digits writes. *)
Definition digits_value (ds : list N) : N :=
  fold_left (fun acc d => (10 * acc + d)%N) ds 0%N.

(** An optional sign: whether it is a minus, and what follows it. *)
Definition sign_of (s : str) : bool * str :=
  match s with
  | c :: s' =>
      if (c =? 45)%N then (true, s')
      else if (c =? 43)%N then (false, s')
      else (false, s)
  | [] => (false, s)
  end.

Definition ascii_lower (s : str) : str :=
  map (fun c => if in_range 65 90 c then (c + 32)%N else c) s.

(** An exponent part [e], [e+] or [e-] followed by digits, at the very end
    of the literal. *)
Definition exponent_of (s : str) : option Z :=
  match s with
  | [] => Some 0%Z
  | c :: s1 =>
      if (c =? 101)%N || (c =? 69)%N then
        let (neg, s2) := sign_of s1 in
        match span_digits s2 with
        | ((_ :: _) as ds, []) =>
            let v := Z.of_N (digits_value ds) in
            Some (if neg then (- v)%Z else v)
        | _ => None
        end
      else None
  end.

(** A decimal literal: digits, an optional point and more digits (one digit
    at least in all), an optional exponent. *)
Definition decimal_of (neg : bool) (s : str) : option float :=
  let (ip, s1) := span_digits s in
  let (fp, s2) :=
    match s1 with
    | c :: s1' => if (c =? dot)%N then span_digits s1' else ([], s1)
    | [] => ([], s1)
    end in
  match ip ++ fp with
  | [] => None
  | ds =>
      match exponent_of s2 with
      | Some ex => Some (of_decimal neg (digits_value ds) (ex - Z.of_nat (List.length fp)))
      | None => None
      end
  end.

(** [float(s)] for a [str]; [None] stands for the ValueError. *)
Definition float_of_str (s : str) : option float :=
  match drop_underscores 0%N (c_strip (to_ascii_number s)) with
  | None => None
  | Some t =>
      let (neg, body) := sign_of t in
      let word := ascii_lower body in
      if PyStr.eqb word (lit "inf") || PyStr.eqb word (lit "infinity")
      then Some (S754_infinity neg)
      else if PyStr.eqb word (lit "nan") then Some S754_nan
      else decimal_of neg body
  end.

(** The interpreter's limit on the digits of an int read from a string
    ([sys.int_info.default_max_str_digits]). *)
Definition max_str_digits : nat := 4300.

(** [int(s)] for a [str], base ten; [None] stands for the ValueError, which
    is also raised when the literal has more than [max_str_digits] digits
    (leading zeros count, the sign and the underscores do not). *)
Definition int_of_str (s : str) : option Z :=
  match drop_underscores 0%N (c_strip (to_ascii_number s)) with
  | None => None
  | Some t =>
      let (neg, body) := sign_of t in
      match span_digits body with
      | ((_ :: _) as ds, []) =>
          if (List.length ds <=? max_str_digits)%nat then
            let v := Z.of_N (digits_value ds) in
            Some (if neg then (- v)%Z else v)
          else None
      | _ => None
      end
  end.

(** [int(x)] for a float: truncation towards zero; [None] stands for the
    error on an infinity or a NaN. *)
Definition int_of_float (x : float) : option Z :=
  match x with
  | S754_zero _ => Some 0%Z
  | S754_finite s m e =>
      let a := match e with
               | Zneg k => (Zpos m / Zpos (Pos.pow 2 k))%Z
               | _ => (Zpos m * 2 ^ e)%Z
               end in
      Some (if s then (- a)%Z else a)
  | _ => None
  end.

(** *** Printing *)

Definition digit_char (d : N) : char := (48 + d)%N.

Fixpoint N_digits_from (fuel : nat) (n : N) (acc : list N) : list N :=
  match fuel with
  | O => acc
  | S fuel' =>
      if (n <? 10)%N then n :: acc
      else N_digits_from fuel' (n / 10)%N ((n mod 10)%N :: acc)
  end.

(** The decimal digits of [n], most significant first. *)
Definition N_digits (n : N) : list N := N_digits_from (S (N.to_nat (N.log2 n))) n [].

(** [str(z)] for an int. *)
Definition int_repr (z : Z) : str :=
  match z with
  | Zneg p => hyphen :: map digit_char (N_digits (Npos p))
  | _ => map digit_char (N_digits (Z.to_N z))
  end.

(** The exact value of a finite non-zero float as a fraction [num / den]. *)
Definition fraction (m : positive) (e : Z) : N * N :=
  match e with
  | Zneg k => (Npos m, Npos (Pos.pow 2 k))
  | _ => (Npos m * 2 ^ Z.to_N e, 1)%N
  end.

(** [x < 10^k] for [x = num / den]. *)
Definition below_pow10 (num den : N) (k : Z) : bool :=
  match k with
  | Zneg j => (num * Npos (Pos.pow 10 j) <? den)%N
  | _ => (num <? den * 10 ^ Z.to_N k)%N
  end.

(** The least [k] from [k0] on with [x < 10^k]: the position of the
    decimal point of [x]. *)
Fixpoint decpt_from (fuel : nat) (num den : N) (k : Z) : Z :=
  match fuel with
  | O => k
  | S fuel' => if below_pow10 num den k then k else decpt_from fuel' num den (k + 1)
  end.

Definition decpt_of (num den : N) : Z := decpt_from 640 num den (-324).

(** [x * 10^(n - k)] cut to an integer, and whether the part cut off is
    below, at or above one half. *)
Definition scaled (num den : N) (k : Z) (n : Z) : N * comparison :=
  let sh := (n - k)%Z in
  let '(a, b) := match sh with
                 | Zneg j => (num, den * Npos (Pos.pow 10 j))%N
                 | _ => (num * 10 ^ Z.to_N sh, den)%N
                 end in
  ((a / b)%N, (2 * (a mod b) ?= b)%N).

(** The two decimals of [n] digits next to [x], the nearer one first
    (the even one at a tie); the first is [x] itself when it has [n] digits. *)
Definition candidates (num den : N) (k : Z) (n : Z) : list N :=
  let '(q, c) := scaled num den k n in
  match c with
  | Lt => [q; (q + 1)%N]
  | Gt => [(q + 1)%N; q]
  | Eq => if N.even q then [q; (q + 1)%N] else [(q + 1)%N; q]
  end.

Definition reads_back (s : bool) (m : positive) (e : Z) (d : N) (e10 : Z) : bool :=
  match of_decimal s d e10 with
  | S754_finite s' m' e' => Bool.eqb s s' && (m =? m')%positive && (e =? e')%Z
  | _ => false
  end.

(** The shortest decimal that reads back as the float (the nearest to it
    among those), as digits [d] of a number [d * 10^e10]; seventeen digits
    always do. *)
Fixpoint shortest_from (fuel : nat) (s : bool) (m : positive) (e : Z)
    (num den : N) (k : Z) (n : Z) : N * Z :=
  let e10 := (k - n)%Z in
  match fuel with
  | O => (hd 0%N (candidates num den k n), e10)
  | S fuel' =>
      match filter (fun d => reads_back s m e d e10) (candidates num den k n) with
      | d :: _ => (d, e10)
      | [] => shortest_from fuel' s m e num den k (n + 1)
      end
  end.

Fixpoint strip_zeros (fuel : nat) (d : N) (e10 : Z) : N * Z :=
  match fuel with
  | O => (d, e10)
  | S fuel' =>
      if ((0 <? d) && (d mod 10 =? 0))%N then strip_zeros fuel' (d / 10)%N (e10 + 1)
      else (d, e10)
  end.

Definition zeros (n : nat) : str := repeat 48%N n.

(** [repr(x)] for a float, which is also [str(x)]. *)
Definition float_repr (x : float) : str :=
  match x with
  | S754_nan => lit "nan"
  | S754_infinity s => (if s then [hyphen] else []) ++ lit "inf"
  | S754_zero s => (if s then [hyphen] else []) ++ lit "0.0"
  | S754_finite s m e =>
      let (num, den) := fraction m e in
      let k := decpt_of num den in
      let '(d0, e0) := shortest_from 16 s m e num den k 1 in
      let '(d, e10) := strip_zeros 20 d0 e0 in
      let ds := map digit_char (N_digits d) in
      let n := Z.of_nat (List.length ds) in
      let decpt := (e10 + n)%Z in
      let body :=
        if ((decpt <=? -4) || (16 <? decpt))%Z then
          let ex := (decpt - 1)%Z in
          let exd := map digit_char (N_digits (Z.abs_N ex)) in
          firstn 1 ds
            ++ match skipn 1 ds with [] => [] | fr => dot :: fr end
            ++ [101%N; if (ex <? 0)%Z then hyphen else 43%N]
            ++ (match exd with [_] => [48%N] | _ => [] end) ++ exd
        else if (decpt <=? 0)%Z then
          lit "0." ++ zeros (Z.to_nat (- decpt)) ++ ds
        else if (n <=? decpt)%Z then
          ds ++ zeros (Z.to_nat (decpt - n)) ++ lit ".0"
        else
          firstn (Z.to_nat decpt) ds ++ dot :: skipn (Z.to_nat decpt) ds
      in (if s then [hyphen] else []) ++ body
  end.

End PyNum.

(** ** Python values, exceptions *)
Module Py.
Import PyFloat.

(** The values [json.loads] builds, which are the values the handler works
    on.  A [dict] keeps its keys in insertion order. *)
#[warnings="-register-all"]
Inductive pyval : Type :=
| PNone
| PBool (b : bool)
| PInt (z : Z)
| PFloat (x : float)
| PStr (s : str)
| PList (l : list pyval)
| PDict (d : list (str * pyval)).

Definition dict := list (str * pyval).

(** [d.get(k)] *)
Fixpoint dict_get (d : dict) (k : str) : option pyval :=
  match d with
  | [] => None
  | (k', v) :: d' => if PyStr.eqb k' k then Some v else dict_get d' k
  end.

(** [d.get(k, default)] *)
Definition get (d : dict) (k : str) (default : pyval) : pyval :=
  match dict_get d k with
  | Some v => v
  | None => default
  end.

(** [d[k] = v]: a key already present keeps its place. *)
Fixpoint dict_set (d : dict) (k : str) (v : pyval) : dict :=
  match d with
  | [] => [(k, v)]
  | (k', v') :: d' =>
      if PyStr.eqb k' k then (k', v) :: d' else (k', v') :: dict_set d' k v
  end.

(** Truth value, as [if v], [not v] and [v or w] test it. *)
Definition truthy (v : pyval) : bool :=
  match v with
  | PNone => false
  | PBool b => b
  | PInt z => negb (z =? 0)%Z
  | PFloat x => negb (PyFloat.eqb x zero)
  | PStr s => match s with [] => false | _ => true end
  | PList l => match l with [] => false | _ => true end
  | PDict d => match d with [] => false | _ => true end
  end.

Definition isinstance_dict (v : pyval) : bool :=
  match v with PDict _ => true | _ => false end.

Inductive exn_kind : Type :=
| RuntimeError | ValueError | TypeError | OverflowError | AttributeError
| UpstreamError.   (* whatever the model client raises *)

(** An exception; [message] is what [str(e)] gives. *)
Record exn : Type := Exn { kind : exn_kind; message : str }.

(** A computation that returns or raises. *)
Inductive result (A : Type) : Type :=
| Ret (a : A)
| Raise (e : exn).
Arguments Ret {A} a.
Arguments Raise {A} e.

Definition bind {A B : Type} (c : result A) (f : A -> result B) : result B :=
  match c with
  | Ret a => f a
  | Raise e => Raise e
  end.

Definition returns {A : Type} (c : result A) : bool :=
  match c with Ret _ => true | Raise _ => false end.

End Py.

Export Py.

Notation "x <- c ;; k" := (bind c (fun x => k))
  (at level 61, c at next level, right associativity).

(** ** [json.loads]

    The decoder of the [json] module with its default settings (strict
    strings, [NaN], [Infinity] and [-Infinity] accepted, a repeated key
    keeps its last value).  [None] stands for the exception raised: the
    JSONDecodeError, or the ValueError of an int with more digits than the
    interpreter reads.  The limit on the depth of nesting is not
    modelled. *)
Module Json.
Import PyFloat PyNum.

Definition is_ws (c : char) : bool :=
  (c =? 32)%N || (c =? 9)%N || (c =? 10)%N || (c =? 13)%N.

Fixpoint skip_ws (s : str) : str :=
  match s with
  | c :: s' => if is_ws c then skip_ws s' else s
  | [] => []
  end.

Definition hex_digit (c : char) : option N :=
  if in_range 48 57 c then Some (c - 48)%N
  else if in_range 97 102 c then Some (c - 87)%N
  else if in_range 65 70 c then Some (c - 55)%N
  else None.

(** Four hexadecimal digits. *)
Definition hex4 (s : str) : option (N * str) :=
  match s with
  | a :: b :: c :: d :: rest =>
      match hex_digit a, hex_digit b, hex_digit c, hex_digit d with
      | Some x, Some y, Some z, Some w => Some (((x * 16 + y) * 16 + z) * 16 + w, rest)%N
      | _, _, _, _ => None
      end
  | _ => None
  end.

(** What follows a [\uXXXX] escape that gave [c]: a high surrogate takes a
    low surrogate written as a second escape with it. *)
Definition surrogate_pair (c : N) (rest : str) : option (N * str) :=
  if in_range 55296 56319 c then
    match rest with
    | 92%N :: 117%N :: rest1 =>
        match hex4 rest1 with
        | Some (c2, rest2) =>
            if in_range 56320 57343 c2
            then Some (65536 + ((c - 55296) * 1024 + (c2 - 56320)), rest2)%N
            else Some (c, rest)
        | None => None
        end
    | _ => Some (c, rest)
    end
  else Some (c, rest).

(** The body of a string literal, after its opening quote: the decoded
    text and what follows the closing quote.  [fuel] bounds the number of
    characters read. *)
Fixpoint scanstring_from (fuel : nat) (s : str) (acc : str) : option (str * str) :=
  match fuel with
  | O => None
  | S fuel' =>
      match s with
      | [] => None
      | 34%N :: rest => Some (rev acc, rest)
      | 92%N :: e :: rest =>
          if (e =? 117)%N then
            match hex4 rest with
            | Some (c, rest1) =>
                match surrogate_pair c rest1 with
                | Some (c', rest2) => scanstring_from fuel' rest2 (c' :: acc)
                | None => None
                end
            | None => None
            end
          else
            let simple (c : N) := scanstring_from fuel' rest (c :: acc) in
            if (e =? 34)%N then simple 34%N
            else if (e =? 92)%N then simple 92%N
            else if (e =? 47)%N then simple 47%N
            else if (e =? 98)%N then simple 8%N
            else if (e =? 102)%N then simple 12%N
            else if (e =? 110)%N then simple 10%N
            else if (e =? 114)%N then simple 13%N
            else if (e =? 116)%N then simple 9%N
            else None
      | 92%N :: [] => None
      | c :: rest =>
          if (c <? 32)%N then None else scanstring_from fuel' rest (c :: acc)
      end
  end.

Definition scanstring (s : str) : option (str * str) :=
  scanstring_from (List.length s) s [].

(** [digits] of a JSON number: ASCII digits only. *)
Fixpoint span_ascii_digits (s : str) : str * str :=
  match s with
  | c :: s' =>
      if is_ascii_digit c
      then let (ds, rest) := span_ascii_digits s' in (c :: ds, rest)
      else ([], s)
  | [] => ([], [])
  end.

(** A number: an optional minus sign, then a zero or a digit from 1 to 9
    with more digits, then an optional point with digits, then an optional
    exponent ([e] or [E], an optional sign, digits); the longest such prefix
    is taken, and it is a float when it has a fraction or an exponent. *)
Definition match_number (s : str) : option (pyval * str) :=
  let (sgn, s0) := match s with 45%N :: s' => ([45%N], s') | _ => ([], s) end in
  let int_part :=
    match s0 with
    | 48%N :: rest => Some ([48%N], rest)
    | c :: _ =>
        if in_range 49 57 c then Some (span_ascii_digits s0) else None
    | [] => None
    end in
  match int_part with
  | None => None
  | Some (ip, s1) =>
      let '(fp, s2) :=
        match s1 with
        | 46%N :: s1' =>
            match span_ascii_digits s1' with
            | ((_ :: _) as ds, rest) => (46%N :: ds, rest)
            | _ => ([], s1)
            end
        | _ => ([], s1)
        end in
      let '(ep, s3) :=
        match s2 with
        | e :: s2' =>
            if (e =? 101)%N || (e =? 69)%N then
              let (sg, s2'') :=
                match s2' with
                | c :: r => if (c =? 45)%N || (c =? 43)%N then ([c], r) else ([], s2')
                | [] => ([], s2')
                end in
              match span_ascii_digits s2'' with
              | ((_ :: _) as ds, rest) => (e :: sg ++ ds, rest)
              | _ => ([], s2)
              end
            else ([], s2)
        | [] => ([], s2)
        end in
      let numstr := sgn ++ ip ++ fp ++ ep in
      match fp ++ ep with
      | [] => option_map (fun z => (PInt z, s3)) (int_of_str numstr)
      | _ => option_map (fun x => (PFloat x, s3)) (float_of_str numstr)
      end
  end.

(** If [s] starts with [w], what follows it. *)
Fixpoint after_prefix (w s : str) : option str :=
  match w, s with
  | [], _ => Some s
  | x :: w', y :: s' => if (x =? y)%N then after_prefix w' s' else None
  | _ :: _, [] => None
  end.

(** One JSON value at the start of [s], and what follows it.  [fuel]
    bounds the number of values, members and elements read. *)
Fixpoint scan_once (fuel : nat) (s : str) : option (pyval * str) :=
  match fuel with
  | O => None
  | S fuel' =>
      match s with
      | 34%N :: s' => option_map (fun '(t, rest) => (PStr t, rest)) (scanstring s')
      | 123%N :: s' =>
          match skip_ws s' with
          | 125%N :: rest => Some (PDict [], rest)
          | s1 => parse_members fuel' s1 []
          end
      | 91%N :: s' =>
          match skip_ws s' with
          | 93%N :: rest => Some (PList [], rest)
          | s1 => parse_elements fuel' s1 []
          end
      | _ =>
          match after_prefix (lit "null") s with
          | Some rest => Some (PNone, rest)
          | None =>
          match after_prefix (lit "true") s with
          | Some rest => Some (PBool true, rest)
          | None =>
          match after_prefix (lit "false") s with
          | Some rest => Some (PBool false, rest)
          | None =>
          match after_prefix (lit "NaN") s with
          | Some rest => Some (PFloat S754_nan, rest)
          | None =>
          match after_prefix (lit "Infinity") s with
          | Some rest => Some (PFloat (S754_infinity false), rest)
          | None =>
          match after_prefix (lit "-Infinity") s with
          | Some rest => Some (PFloat (S754_infinity true), rest)
          | None => match_number s
          end end end end end end
      end
  end

(** The members of an object from a key on, [acc] being those read. *)
with parse_members (fuel : nat) (s : str) (acc : dict) : option (pyval * str) :=
  match fuel with
  | O => None
  | S fuel' =>
      match s with
      | 34%N :: s' =>
          match scanstring s' with
          | Some (key, r1) =>
              match skip_ws r1 with
              | 58%N :: r2 =>
                  match scan_once fuel' (skip_ws r2) with
                  | Some (v, r3) =>
                      let acc' := dict_set acc key v in
                      match skip_ws r3 with
                      | 125%N :: rest => Some (PDict acc', rest)
                      | 44%N :: r4 => parse_members fuel' (skip_ws r4) acc'
                      | _ => None
                      end
                  | None => None
                  end
              | _ => None
              end
          | None => None
          end
      | _ => None
      end
  end

(** The elements of an array from a value on, [acc] being those read, last
    first. *)
with parse_elements (fuel : nat) (s : str) (acc : list pyval) : option (pyval * str) :=
  match fuel with
  | O => None
  | S fuel' =>
      match scan_once fuel' s with
      | Some (v, r1) =>
          match skip_ws r1 with
          | 93%N :: rest => Some (PList (rev (v :: acc)), rest)
          | 44%N :: r2 => parse_elements fuel' (skip_ws r2) (v :: acc)
          | _ => None
          end
      | None => None
      end
  end.

(** [json.loads(s)]: one value, white space around it, nothing else. *)
Definition loads (s : str) : option pyval :=
  match s with
  | 65279%N :: _ => None
  | _ =>
      match scan_once (S (2 * List.length s)) (skip_ws s) with
      | Some (v, rest) =>
          match skip_ws rest with
          | [] => Some v
          | _ => None
          end
      | None => None
      end
  end.

End Json.

(** * [app.py] *)

Import PyFloat PyNum Re.

(** A literal that holds double quotes, written with a backquote for each
    (none of the program's literals holds a backquote). *)
Definition litq (s : string) : str :=
  map (fun c => if (c =? 96)%N then dquote else c) (lit s).

(** ** [response_to_text] *)

(** What the handler can see of a response of the model client: the
    attribute [text] (absent, raising, or a value that may be [None]), the
    two paths into [candidates], and [str(resp)]. *)
Record response : Type := {
  text_attr : option (result (option str));
  parts_text : result (option str);   (* resp.candidates[0].content.parts[0].text *)
  content_text : result (option str); (* resp.candidates[0].content[0].text *)
  as_str : str
}.

Definition response_to_text (resp : response) : option str :=
  match text_attr resp with
  | Some (Ret (Some ((_ :: _) as t))) => Some t
  | _ =>
      match parts_text resp with
      | Ret t => t
      | Raise _ =>
          match content_text resp with
          | Ret t => t
          | Raise _ => Some (as_str resp)
          end
      end
  end.

(** ** [extract_json_from_text] *)

Definition lbrace : char := 123%N.
Definition rbrace : char := 125%N.
Definition rbracket : char := 93%N.

(** The pattern "\{[\s\S]*\}" *)
Definition braces_re : re :=
  Seq (Chr (is_char lbrace)) (Seq (Star true any_char) (Chr (is_char rbrace))).

(** The pattern ",\s*}" *)
Definition comma_brace_re : re :=
  Seq (Chr (is_char comma)) (Seq (Star true space) (Chr (is_char rbrace))).

(** The pattern ",\s*\]" *)
Definition comma_bracket_re : re :=
  Seq (Chr (is_char comma)) (Seq (Star true space) (Chr (is_char rbracket))).

Definition extract_json_from_text (text : option str) : option pyval :=
  match text with
  | None | Some [] => None
  | Some t =>
      match search braces_re t with
      | None => None
      | Some m =>
          let s := group0 m in
          match Json.loads s with
          | Some v => Some v
          | None =>
              let s2 := replace squote [dquote] s in
              let s2 := sub comma_brace_re [rbrace] s2 in
              let s2 := sub comma_bracket_re [rbracket] s2 in
              Json.loads s2
          end
      end
  end.

(** ** [parse_number] *)

(** The pattern ".*?(\d[\d,\.]*)\s*[-–]\s*(\d[\d,\.]*).*" *)
Definition range_re : re :=
  Seq (Star false not_newline)
 (Seq (Group (Seq (Chr digit) (Star true digit_comma_dot)))
 (Seq (Star true space)
 (Seq (Chr dash)
 (Seq (Star true space)
 (Seq (Group (Seq (Chr digit) (Star true digit_comma_dot)))
      (Star true not_newline)))))).

(** The pattern "[^\d\.,]" *)
Definition not_digit_dot_comma_re : re :=
  Chr (fun c => negb (digit_comma_dot c)).

Definition two : float := of_Z 2.

Definition int_too_large : exn :=
  Exn OverflowError (lit "int too large to convert to float").

(** [float(z)] for an int, which is also how an int enters float
    arithmetic. *)
Definition float_of_int (z : Z) : result float :=
  match of_int z with
  | Some x => Ret x
  | None => Raise int_too_large
  end.

(** [float(s)] where the ValueError escapes.  Its message quotes [s]; the
    program only lets it escape on digits and dots, which [repr] leaves as
    they are between two single quotes. *)
Definition float_or_raise (s : str) : result float :=
  match float_of_str s with
  | Some x => Ret x
  | None =>
      Raise (Exn ValueError
               (lit "could not convert string to float: " ++ squote :: s ++ [squote]))
  end.

Section Handler.

(** [str(v)] for a list or dict that is not empty: the interpreter's
    [repr], which none of the properties below depends on. *)
Variable repr_container : pyval -> str.

(** [str(v)] *)
Definition py_str (v : pyval) : str :=
  match v with
  | PNone => lit "None"
  | PBool true => lit "True"
  | PBool false => lit "False"
  | PInt z => int_repr z
  | PFloat x => float_repr x
  | PStr s => s
  | PList [] => lit "[]"
  | PDict [] => lit "{}"
  | _ => repr_container v
  end.

Definition parse_number (value : pyval) : result float :=
  match value with
  | PNone => Ret zero
  | PBool b => float_of_int (Z.b2z b)
  | PInt z => float_of_int z
  | PFloat x => Ret x
  | _ =>
      let s := strip (py_str value) in
      match s with
      | [] => Ret zero
      | _ =>
          match rematch range_re s with
          | Some range_match =>
              a <- float_or_raise (replace comma [] (nth 0 (groups range_match) [])) ;;
              b <- float_or_raise (replace comma [] (nth 1 (groups range_match) [])) ;;
              Ret (round2 (div (add a b) two))
          | None =>
              let cleaned := sub not_digit_dot_comma_re [] s in
              match cleaned with
              | [] => Ret zero
              | _ =>
                  let cleaned :=
                    if (1 <? count dot cleaned)%nat
                    then replace comma [] cleaned else cleaned in
                  match float_of_str (replace comma [] cleaned) with
                  | Some num => Ret (round2 num)
                  | None => Ret zero
                  end
              end
          end
      end
  end.

(** ** The prompt *)

Definition CATEGORY_KEYS : list (str * str) :=
  [ (lit "vision_2030", lit "Vision 2030 & Global Event Diplomacy");
    (lit "financial_modeling", lit "Financial Modeling");
    (lit "government_relations", lit "Government Relations");
    (lit "global_case_stories", lit "Global Case Stories");
    (lit "hybrid_learning", lit "Hybrid Learning") ].

(** [sep.join(parts)] *)
Fixpoint join (sep : str) (parts : list str) : str :=
  match parts with
  | [] => []
  | [p] => p
  | p :: rest => p ++ sep ++ join sep rest
  end.

Definition build_structured_prompt (product_name place currency_code : str) : str :=
  let categories_schema :=
    join (comma :: newline :: lit "  ")
      (map (fun kp =>
              dquote :: fst kp ++
              litq "`: { `items`: [{`name`:`string`,`specs`:`string`,`quantity`:1,`price`:0}], `subtotal`: 0 }")
           CATEGORY_KEYS) in
  litq "
You are a helpful assistant. Provide EXACTLY one JSON object (no extra text) that follows this schema:
{
  `product`: `string`,
  `currency`: `" ++ currency_code ++ litq "`,
  " ++ categories_schema ++ litq ",
  `grand_total`: 0
}

Task: For product `" ++ product_name ++ litq "` and market `" ++ place ++ litq "`, produce a breakdown for each of the five strategic categories:
- Vision 2030 & Global Event Diplomacy -> key localization, branding, partnerships (vision_2030)
- Financial Modeling -> hardware, software, installation, testing (financial_modeling)
- Government Relations -> legal, licensing, permits, compliance (government_relations)
- Global Case Stories -> research, imports, R&D, consultancy (global_case_stories)
- Hybrid Learning -> cloud, QR, AR/AI, analytics (hybrid_learning)

For each category list items (name, short specs, integer quantity, approximate price in " ++ currency_code ++ litq ") and provide an approximate numeric subtotal for the category. Finally set `grand_total` equal to the sum of the category subtotals.

Important:
- RETURN ONLY THE JSON OBJECT (no commentary).
- Prices should be realistic approximate numeric values (no currency symbols inside numbers).
".

(** ** [results] *)

(** One entry of [categories], as the template receives it. *)
Record category : Type := {
  key : str;
  title : str;
  items : pyval;
  subtotal : pyval
}.

(** The keyword arguments of [render_template("results.html", ...)]. *)
Record page : Type := {
  product_name : str;
  place : str;
  currency : str;
  categories : list category;
  grand_total : float;
  raw_model_data : pyval;
  error : option str
}.

Definition type_name (v : pyval) : str :=
  match v with
  | PNone => lit "NoneType"
  | PBool _ => lit "bool"
  | PInt _ => lit "int"
  | PFloat _ => lit "float"
  | PStr _ => lit "str"
  | PList _ => lit "list"
  | PDict _ => lit "dict"
  end.

(** [v.get(k, default)] on a value that need not be a dict. *)
Definition py_get (v : pyval) (k : str) (default : pyval) : result pyval :=
  match v with
  | PDict d => Ret (get d k default)
  | _ =>
      Raise (Exn AttributeError
               (squote :: type_name v ++ lit "' object has no attribute 'get'"))
  end.

(** What [for it in v] goes through. *)
Definition iterate (v : pyval) : result (list pyval) :=
  match v with
  | PList l => Ret l
  | PDict d => Ret (map (fun kv => PStr (fst kv)) d)
  | PStr s => Ret (map (fun c => PStr [c]) s)
  | _ => Raise (Exn TypeError (squote :: type_name v ++ lit "' object is not iterable"))
  end.

(** A [for] loop whose body may raise, threading the variables it
    assigns. *)
Fixpoint for_each {S A : Type} (body : A -> S -> result S) (l : list A) (st : S)
    : result S :=
  match l with
  | [] => Ret st
  | a :: l' => st' <- body a st ;; for_each body l' st'
  end.

(** [float(v)] inside [try ... except Exception]: [None] when it raises. *)
Definition try_float (v : pyval) : option float :=
  match v with
  | PBool b => of_int (Z.b2z b)
  | PInt z => of_int z
  | PFloat x => Some x
  | PStr s => float_of_str s
  | _ => None
  end.

(** [int(v)] inside [try ... except Exception]: [None] when it raises. *)
Definition try_int (v : pyval) : option Z :=
  match v with
  | PBool b => Some (Z.b2z b)
  | PInt z => Some z
  | PFloat x => int_of_float x
  | PStr s => int_of_str s
  | _ => None
  end.

(** The body of [for it in items]; the state is [normalized_items] and
    [computed_sub]. *)
Definition normalize_item (it : pyval) (st : list pyval * float)
    : result (list pyval * float) :=
  let '(normalized_items, computed_sub) := st in
  match it with
  | PDict d =>
      let name :=
        let n := get d (lit "name") (PStr []) in
        if truthy n then n else PStr (py_str n) in
      let specs :=
        let sp := get d (lit "specs") (PStr []) in
        if truthy sp then sp else PStr [] in
      let qty_raw := get d (lit "quantity") (PInt 1) in
      let qty :=
        match try_int qty_raw with
        | Some q => if (q <=? 0)%Z then 1%Z else q
        | None => 1%Z
        end in
      let raw_price := get d (lit "price") (PInt 0) in
      price_num <- parse_number raw_price ;;
      qty_f <- float_of_int qty ;;
      let computed_sub := add computed_sub (mul price_num qty_f) in
      Ret (normalized_items ++
             [PDict [ (lit "name", name); (lit "specs", specs);
                      (lit "quantity", PInt qty);
                      (lit "price", PFloat (round2 price_num)) ]],
           computed_sub)
  | _ => Ret st
  end.

(** [subtotal_num] of a category, from the block's [subtotal] and the sum
    over its items. *)
Definition resolve_subtotal (subtotal_raw : pyval) (computed_sub : float) : float :=
  match try_float subtotal_raw with
  | Some subtotal_num =>
      if leb subtotal_num zero then round2 computed_sub else subtotal_num
  | None => round2 computed_sub
  end.

(** The body of [for key, pretty in CATEGORY_KEYS]; the state is
    [categories] and [grand_total]. *)
Definition normalize_category (data : pyval) (kp : str * str)
    (st : list category * float) : result (list category * float) :=
  let '(k, pretty) := kp in
  let '(cats, total) := st in
  cat_block <- py_get data k (PDict []) ;;
  let its :=
    match cat_block with
    | PDict d => get d (lit "items") (PList [])
    | _ => PList []
    end in
  let subtotal_raw :=
    match cat_block with
    | PDict d => get d (lit "subtotal") (PInt 0)
    | _ => PInt 0
    end in
  l <- iterate its ;;
  r <- for_each normalize_item l ([], zero) ;;
  let '(normalized_items, computed_sub) := r in
  let subtotal_num := resolve_subtotal subtotal_raw computed_sub in
  Ret (cats ++ [ {| key := k; title := pretty; items := PList normalized_items;
                    subtotal := PFloat (round2 subtotal_num) |} ],
       add total subtotal_num).

(** [isinstance(v, (int, float)) and v > 0] *)
Definition positive_number (v : pyval) : bool :=
  match v with
  | PBool b => b
  | PInt z => (0 <? z)%Z
  | PFloat x => ltb zero x
  | _ => false
  end.

(** Lines 218-274: [categories] and [grand_total] from [data]. *)
Definition normalize (data : pyval) : result (list category * float) :=
  r <- for_each (normalize_category data) CATEGORY_KEYS ([], zero) ;;
  let '(cats, total) := r in
  let total := round2 total in
  gt <- py_get data (lit "grand_total") PNone ;;
  if positive_number gt then
    model_total <- parse_number gt ;;
    Ret (cats, round2 model_total)
  else Ret (cats, total).

Definition empty_block : pyval :=
  PDict [ (lit "items", PList []); (lit "subtotal", PInt 0) ].

(** The [fallback] dict of the last resort (lines 206-215). *)
Definition empty_fallback (product currency_code : str) : pyval :=
  PDict [ (lit "product", PStr product); (lit "currency", PStr currency_code);
          (lit "vision_2030", empty_block);
          (lit "financial_modeling", empty_block);
          (lit "government_relations", empty_block);
          (lit "global_case_stories", empty_block);
          (lit "hybrid_learning", empty_block);
          (lit "grand_total", PInt 0) ].

(** The [fallback] dict of the [except] branch (lines 287-296). *)
Definition error_fallback (product currency_code : str) (e : exn) : dict :=
  [ (lit "product", PStr (match product with [] => lit "Unknown" | _ => product end));
    (lit "currency", PStr currency_code);
    (lit "vision_2030",
      PDict [ (lit "items",
                PList [ PDict [ (lit "name", PStr (lit "Error"));
                                (lit "specs", PStr (message e));
                                (lit "quantity", PInt 1);
                                (lit "price", PInt 0) ] ]);
              (lit "subtotal", PInt 0) ]);
    (lit "financial_modeling", empty_block);
    (lit "government_relations", empty_block);
    (lit "global_case_stories", empty_block);
    (lit "hybrid_learning", empty_block);
    (lit "grand_total", PInt 0) ].

(** The loop of the [except] branch (lines 297-305). *)
Definition categories_fallback (fallback : dict) : list category :=
  map (fun kp =>
         let block := get fallback (fst kp) empty_block in
         {| key := fst kp; title := snd kp;
            items := match block with
                     | PDict b => get b (lit "items") (PList [])
                     | _ => PList []
                     end;
            subtotal := match block with
                        | PDict b => get b (lit "subtotal") (PInt 0)
                        | _ => PInt 0
                        end |})
      CATEGORY_KEYS.

(** The process environment and the model client. *)
Variable GOOGLE_API_KEY : option str.
Variable MODEL_NAME : str.
(** [genai.GenerativeModel(name)] *)
Variable GenerativeModel : str -> result unit.
(** [model.generate_content(prompt)]; the first argument counts the calls
    made before. *)
Variable generate_content : nat -> str -> result response.

(** [request.form.get(k, "")] *)
Definition form_get (form : list (str * str)) (k : str) : str :=
  match find (fun kv => PyStr.eqb (fst kv) k) form with
  | Some kv => snd kv
  | None => []
  end.

Definition followup_prompt (text : option str) (currency_code : str) : str :=
  litq "You returned text that wasn't valid JSON following the schema. Convert your previous content to EXACT JSON matching the schema and nothing else.

Previous output:
" ++ match text with Some t => t | None => lit "None" end
  ++ litq "

Schema example snippet:
{`product`:`string`,`currency`:`" ++ currency_code ++ litq "`, ... `grand_total`:0}".

Definition falsy (data : option pyval) : bool :=
  match data with
  | None => true
  | Some v => negb (truthy v)
  end.

(** The first lines of [results]: what is read from the form. *)
Definition form_product (form : list (str * str)) : str :=
  match strip (form_get form (lit "product_name")) with
  | [] => strip (form_get form (lit "product"))
  | p => p
  end.

Definition form_place (form : list (str * str)) : str :=
  strip (form_get form (lit "place")).

(** The [try] block of [results] (lines 184-284). *)
Definition results_try (form : list (str * str)) : result page :=
  let product := form_product form in
  let place_ := form_place form in
  let currency_code := detect_currency_code place_ in
  let prompt := build_structured_prompt product place_ currency_code in
  _ <- match GOOGLE_API_KEY with
       | None | Some [] =>
           Raise (Exn RuntimeError
                    (lit "GOOGLE_API_KEY is not configured in the environment."))
       | Some _ => Ret tt
       end ;;
  _ <- GenerativeModel MODEL_NAME ;;
  resp <- generate_content 0 prompt ;;
  let text := response_to_text resp in
  let data := extract_json_from_text text in
  data <- (if falsy data then
             resp2 <- generate_content 1 (followup_prompt text currency_code) ;;
             Ret (extract_json_from_text (response_to_text resp2))
           else Ret data) ;;
  let data :=
    match data with
    | Some v => if truthy v then v else empty_fallback product currency_code
    | None => empty_fallback product currency_code
    end in
  r <- normalize data ;;
  Ret {| product_name := product; place := place_; currency := currency_code;
         categories := fst r; grand_total := snd r;
         raw_model_data := data; error := None |}.

(** The [except Exception as e] branch (lines 286-315). *)
Definition results_except (form : list (str * str)) (e : exn) : page :=
  let product := form_product form in
  let place_ := form_place form in
  let currency_code := detect_currency_code place_ in
  let fallback := error_fallback product currency_code e in
  {| product_name := product; place := place_; currency := currency_code;
     categories := categories_fallback fallback; grand_total := zero;
     raw_model_data := PDict fallback; error := Some (message e) |}.

(** [results()], from the submitted form to what the template is given. *)
Definition results (form : list (str * str)) : page :=
  match results_try form with
  | Ret pg => pg
  | Raise e => results_except form e
  end.

End Handler.

(** ** [autocomplete] *)

(** What the handler sees of a response of [requests.get]: the status code
    and what [resp.json()] gives. *)
Record http_response : Type := { status_code : Z; json : result pyval }.

(** One entry of the list handed to [jsonify]; the display name is a
    [str], the country code whatever the upstream entry holds. *)
Record suggestion : Type := { display_name : str; country_code : pyval }.

(** The order of [str]: lexicographic on the code points. *)
Fixpoint str_compare (a b : str) : comparison :=
  match a, b with
  | [], [] => Eq
  | [], _ :: _ => Lt
  | _ :: _, [] => Gt
  | x :: a', y :: b' =>
      match (x ?= y)%N with
      | Eq => str_compare a' b'
      | c => c
      end
  end.

(** [a <= b] for tuples of an int and a [str]. *)
Definition key_leb (a b : nat * str) : bool :=
  match Nat.compare (fst a) (fst b) with
  | Lt => true
  | Gt => false
  | Eq => match str_compare (snd a) (snd b) with Gt => false | _ => true end
  end.

(** [l.sort(key=f)]: the sort is stable, an element stays before the later
    elements of the same key. *)
Fixpoint insert_by {A K : Type} (leb : K -> K -> bool) (f : A -> K) (x : A)
    (l : list A) : list A :=
  match l with
  | [] => [x]
  | y :: l' => if leb (f x) (f y) then x :: l else y :: insert_by leb f x l'
  end.

Definition sort_by {A K : Type} (leb : K -> K -> bool) (f : A -> K) (l : list A)
    : list A :=
  fold_right (insert_by leb f) [] l.

Section Autocomplete.

(** [str.lower], left uninterpreted: the handler compares lowered names
    with one another and with the lowered query. *)
Variable str_lower : str -> str.

(** The two requests: the search by name, whose URL holds the quoted
    query, and the list of all countries. *)
Variable get_by_name : str -> result http_response.
Variable get_all : result http_response.

(** [c.get("name", {}).get("common")] *)
Definition common_name (c : pyval) : result pyval :=
  n <- py_get c (lit "name") (PDict []) ;;
  py_get n (lit "common") PNone.

(** [name.lower()] for a name that need not be a [str]: the name as a
    [str] and its lowered form. *)
Definition lower_of (name : pyval) : result (str * str) :=
  match name with
  | PStr s => Ret (s, str_lower s)
  | _ =>
      Raise (Exn AttributeError
               (squote :: type_name name ++ lit "' object has no attribute 'lower'"))
  end.

(** The body of the first loop; the state is [results] and [seen]. *)
Definition collect (c : pyval) (st : list suggestion * list str)
    : result (list suggestion * list str) :=
  let '(results, seen) := st in
  name <- common_name c ;;
  cc <- py_get c (lit "cca2") (PStr []) ;;
  if truthy name then
    sl <- lower_of name ;;
    let '(s, low) := sl in
    if existsb (PyStr.eqb low) seen then Ret (results, seen)
    else Ret (results ++ [ {| display_name := s; country_code := cc |} ],
              low :: seen)
  else Ret (results, seen).

(** The first [try] block: [Some] is what it returns, [None] stands for
    falling out of the [if] on a status other than 200. *)
Definition by_name (q : str) : result (option (list suggestion)) :=
  resp <- get_by_name q ;;
  if (status_code resp =? 200)%Z then
    arr <- json resp ;;
    l <- iterate arr ;;
    r <- for_each collect l ([], []) ;;
    Ret (Some (firstn 12 (fst r)))
  else Ret None.

(** The body of the second loop; the state is [filtered]. *)
Definition keep_matching (qlow : str) (c : pyval) (filtered : list suggestion)
    : result (list suggestion) :=
  name <- common_name c ;;
  cc <- py_get c (lit "cca2") (PStr []) ;;
  if truthy name then
    sl <- lower_of name ;;
    let '(s, low) := sl in
    if contains qlow low
    then Ret (filtered ++ [ {| display_name := s; country_code := cc |} ])
    else Ret filtered
  else Ret filtered.

(** The key of the sort: names that start with the query first, then by
    name. *)
Definition sort_key (qlow : str) (x : suggestion) : nat * str :=
  (if startswith qlow (str_lower (display_name x)) then 0%nat else 1%nat,
   display_name x).

(** The second [try] block. *)
Definition from_all (q : str) : result (list suggestion) :=
  resp <- get_all ;;
  arr <- json resp ;;
  let qlow := str_lower q in
  l <- iterate arr ;;
  filtered <- for_each (keep_matching qlow) l [] ;;
  Ret (firstn 12 (sort_by key_leb (sort_key qlow) filtered)).

(** [request.args.get("q", "").strip()] *)
Definition query (args : list (str * str)) : str := strip (form_get args (lit "q")).

(** [autocomplete()], from the query string to the list given to
    [jsonify]. *)
Definition autocomplete (args : list (str * str)) : list suggestion :=
  match query args with
  | [] => []
  | q =>
      match by_name q with
      | Ret (Some r) => r
      | _ =>
          match from_all q with
          | Ret r => r
          | Raise _ => []
          end
      end
  end.

End Autocomplete.

(** A stand-in for the [repr] of lists and dicts, for running the program
    on inputs that hold none. *)
Definition repr_unused : pyval -> str := fun _ => [].

(** ** The range pattern read as a scanner

    What [range_re] matches, written without the matcher: the classes of the
    pattern exclude one another, so from a given start there is one way to
    match, and the lazy prefix takes the leftmost start on the first line. *)

Fixpoint dropwhile (p : char -> bool) (s : str) : str :=
  match s with
  | c :: s' => if p c then dropwhile p s' else s
  | [] => []
  end.

Fixpoint takewhile (p : char -> bool) (s : str) : str :=
  match s with
  | c :: s' => if p c then c :: takewhile p s' else []
  | [] => []
  end.

(** A range at the very start of [t]: a digit and the run of digits, commas
    and dots after it, white space, a dash, white space, and again a digit
    with its run.  The result is the two bounds and what is left after the
    rest of the line. *)
Definition range_at (t : str) : option (str * str * str) :=
  match t with
  | a0 :: t1 =>
      if digit a0 then
        match dropwhile space (dropwhile digit_comma_dot t1) with
        | d :: t3 =>
            if dash d then
              match dropwhile space t3 with
              | b0 :: t4 =>
                  if digit b0 then
                    Some (a0 :: takewhile digit_comma_dot t1,
                          b0 :: takewhile digit_comma_dot t4,
                          dropwhile not_newline (dropwhile digit_comma_dot t4))
                  else None
              | [] => None
              end
            else None
        | [] => None
        end
      else None
  | [] => None
  end.

(** The leftmost range of the first line of [s]. *)
Fixpoint first_range (s : str) : option (str * str * str) :=
  match range_at s with
  | Some r => Some r
  | None =>
      match s with
      | c :: s' => if not_newline c then first_range s' else None
      | [] => None
      end
  end.

(** No range starts inside [pre] when [rest] follows it. *)
Fixpoint no_range_before (pre rest : str) : bool :=
  match pre with
  | [] => true
  | c :: pre' =>
      match range_at (pre ++ rest) with
      | None => not_newline c && no_range_before pre' rest
      | Some _ => false
      end
  end.

(** A bound of a range: a digit, then digits, commas and dots. *)
Definition is_bound (b : str) : bool :=
  match b with
  | c :: b' => digit c && forallb digit_comma_dot b'
  | [] => false
  end.

(** [s] does not go on with a digit, a comma or a dot. *)
Definition ends_run (s : str) : bool :=
  match s with
  | c :: _ => negb (digit_comma_dot c)
  | [] => true
  end.

(** ** The report in the words of the specification

    What the loops of [results] compute, written as the specification
    states it: per item, per category, and for the degraded reports. *)
Section ReportSpec.
Import PyFloat.

Variable repr_container : pyval -> str.

(** The block of a category in the parsed response. *)
Definition block_of (data : dict) (k : str) : pyval := get data k (PDict []).

(** The items and the subtotal a block provides; a block that is not a
    mapping provides none. *)
Definition items_of (block : pyval) : pyval :=
  match block with
  | PDict d => get d (lit "items") (PList [])
  | _ => PList []
  end.

Definition subtotal_of (block : pyval) : pyval :=
  match block with
  | PDict d => get d (lit "subtotal") (PInt 0)
  | _ => PInt 0
  end.

(** The quantity of an item: a positive integer, 1 when it is invalid or
    not positive. *)
Definition quantity_of (d : dict) : Z :=
  match try_int (get d (lit "quantity") (PInt 1)) with
  | Some q => if (q <=? 0)%Z then 1%Z else q
  | None => 1%Z
  end.

(** Price times quantity for each item that is a mapping, in order. *)
Fixpoint line_totals (l : list pyval) : result (list float) :=
  match l with
  | [] => Ret []
  | PDict d :: l' =>
      price_num <- parse_number repr_container (get d (lit "price") (PInt 0)) ;;
      qty_f <- float_of_int (quantity_of d) ;;
      rest <- line_totals l' ;;
      Ret (mul price_num qty_f :: rest)
  | _ :: l' => line_totals l'
  end.

(** A sum of floats, from the left, starting at 0.0. *)
Definition fsum (xs : list float) : float := fold_left add xs zero.

(** The subtotal a block provides, when [float()] reads it and it is not
    [<= 0]. *)
Definition upstream_subtotal (block : pyval) : option float :=
  match try_float (subtotal_of block) with
  | Some x => if leb x zero then None else Some x
  | None => None
  end.

(** The subtotal of a category before it is rounded for display: the
    upstream value when there is one, the rounded sum over the items
    otherwise. *)
Definition category_subtotal_num (data : dict) (k : str) : result float :=
  let block := block_of data k in
  l <- iterate (items_of block) ;;
  lines <- line_totals l ;;
  Ret (match upstream_subtotal block with
       | Some x => x
       | None => round2 (fsum lines)
       end).

(** One step of the loop over the categories: the category [c] built for
    [kp] and its subtotal [n] before rounding. *)
Definition category_step (data : dict) (kp : str * str) (cn : category * float) : Prop :=
  exists l its computed,
    iterate (items_of (block_of data (fst kp))) = Ret l
    /\ for_each (normalize_item repr_container) l ([], zero) = Ret (its, computed)
    /\ snd cn = resolve_subtotal (subtotal_of (block_of data (fst kp))) computed
    /\ fst cn = {| key := fst kp; title := snd kp; items := PList its;
                   subtotal := PFloat (round2 (snd cn)) |}.

End ReportSpec.

(** A category without items, with the subtotal [sub]. *)
Definition empty_category (sub : pyval) (kp : str * str) : category :=
  {| key := fst kp; title := snd kp; items := PList []; subtotal := sub |}.

(** The categories of the empty report: all five present, no items, 0.0. *)
Definition empty_categories : list category :=
  map (empty_category (PFloat PyFloat.zero)) CATEGORY_KEYS.

(** The categories of the degraded report: the first holds one item named
    Error whose specs are the message, the other four are empty; the
    subtotals are the int 0. *)
Definition error_categories (msg : str) : list category :=
  match CATEGORY_KEYS with
  | first :: others =>
      {| key := fst first; title := snd first;
         items := PList [ PDict [ (lit "name", PStr (lit "Error"));
                                  (lit "specs", PStr msg);
                                  (lit "quantity", PInt 1);
                                  (lit "price", PInt 0) ] ];
         subtotal := PInt 0 |}
      :: map (empty_category (PInt 0)) others
  | [] => []
  end.

(** The block of a category is absent from the response, or is not a
    mapping. *)
Definition no_block (data : dict) (k : str) : bool :=
  match dict_get data k with
  | None => true
  | Some v => negb (isinstance_dict v)
  end.

(** ** Example responses and an example environment *)

(** Each of the five blocks is [{"subtotal": 0.004}]. *)
Definition small_subtotals : pyval :=
  PDict (map (fun kp => (fst kp, PDict [ (lit "subtotal",
                                          PFloat (PyFloat.of_decimal false 4 (-3))) ]))
             CATEGORY_KEYS).

(** [{"grand_total": 1234.567}] *)
Definition long_total : pyval :=
  PDict [ (lit "grand_total", PFloat (PyFloat.of_decimal false 1234567 (-3))) ].

(** [{"vision_2030": {"items": null}}] *)
Definition null_items : pyval :=
  PDict [ (lit "vision_2030", PDict [ (lit "items", PNone) ]) ].

(** [{"vision_2030": {"items": 5}}] *)
Definition number_items : pyval :=
  PDict [ (lit "vision_2030", PDict [ (lit "items", PInt 5) ]) ].

(** [{"vision_2030": 3, "financial_modeling": {"items": [{"name": "Switch",
    "quantity": 2, "price": "1,200.50"}]}}] *)
Definition one_item : dict :=
  [ (lit "vision_2030", PInt 3);
    (lit "financial_modeling",
      PDict [ (lit "items",
                PList [ PDict [ (lit "name", PStr (lit "Switch"));
                                (lit "quantity", PInt 2);
                                (lit "price", PStr (lit "1,200.50")) ] ]) ]) ].

(** A response whose text holds no JSON object. *)
Definition prose_response : response :=
  {| text_attr := Some (Ret (Some (lit "I cannot help with that.")));
     parts_text := Ret None; content_text := Ret None; as_str := [] |}.

Definition example_form : list (str * str) :=
  [ (lit "product_name", lit "Router"); (lit "place", lit "Pune, India") ].

(** ** Auxiliary notions for the properties *)
Section Notions.
Import PyFloat PyNum.

(** [x] is a zero, a finite number or an infinity of sign [s]. *)
Definition has_sign (s : bool) (x : float) : Prop :=
  match x with
  | S754_zero s' | S754_infinity s' | S754_finite s' _ _ => s' = s
  | S754_nan => False
  end.

(** The code points that [isspace] accepts. *)
Definition whitespace : list N :=
  [9; 10; 11; 12; 13; 28; 29; 30; 31; 32; 133; 160; 5760;
   8192; 8193; 8194; 8195; 8196; 8197; 8198; 8199; 8200; 8201; 8202;
   8232; 8233; 8239; 8287; 12288]%N.

(** The pattern from its first group on. *)
Definition range_tail : re :=
  Seq (Group (Seq (Chr digit) (Star true digit_comma_dot)))
 (Seq (Star true space)
 (Seq (Chr dash)
 (Seq (Star true space)
 (Seq (Group (Seq (Chr digit) (Star true digit_comma_dot)))
      (Star true not_newline))))).

(** An ASCII digit or a dot. *)
Definition plain (c : char) : bool := is_ascii_digit c || (c =? dot)%N.

(** A decimal digit of any script, or a dot. *)
Definition digit_or_dot (c : char) : bool := isdecimal c || (c =? dot)%N.

(** The text that reaches [float()] when no range is found: the digits and
    dots of the trimmed input. *)
Definition digits_and_dots (s : str) : str :=
  replace comma [] (filter digit_comma_dot (strip s)).

End Notions.

(** ** Notions for the properties of the currency table *)

(** The keys of [CURRENCY_MAP] that hold an earlier key of the table. *)
Definition shadowed_keys : list str :=
  [ lit "saudi arabia"; lit "united kingdom"; lit "australia" ].

(** The table without them. *)
Definition live_entries : list (str * str) :=
  filter (fun kv => negb (existsb (PyStr.eqb (fst kv)) shadowed_keys)) CURRENCY_MAP.

(** The codes [detect_currency_code] can answer. *)
Definition answered_codes : list str :=
  [ lit "INR"; lit "SAR"; lit "AED"; lit "USD"; lit "CAD"; lit "GBP"; lit "EUR";
    lit "JPY"; lit "CNY"; lit "PKR"; lit "BHD"; lit "QAR"; lit "OMR" ].

(** ** Notions for the properties of the report *)

(** An item as the normaliser writes it: the four fields in their order, a
    name that is truthy or a string, specs that are truthy or the empty
    string, an int quantity of 1 at least, a float price. *)
Definition report_item (v : pyval) : bool :=
  match v with
  | PDict [ (k1, name); (k2, specs); (k3, PInt q); (k4, PFloat _) ] =>
      PyStr.eqb k1 (lit "name") && PyStr.eqb k2 (lit "specs")
      && PyStr.eqb k3 (lit "quantity") && PyStr.eqb k4 (lit "price")
      && (truthy name || match name with PStr _ => true | _ => false end)
      && (truthy specs || match specs with PStr [] => true | _ => false end)
      && (1 <=? q)%Z
  | _ => false
  end.

(** What the normaliser writes for an upstream item that is a mapping: the
    name, or its [str] when it is falsy; the specs, or the empty string
    when they are falsy; the quantity of [quantity_of]; the price read by
    [parse_number] and rounded to two decimals. *)
Definition written_item (repr_container : pyval -> str) (d : dict) : result pyval :=
  price_num <- parse_number repr_container (get d (lit "price") (PInt 0)) ;;
  Ret (PDict [ (lit "name",
                 let n := get d (lit "name") (PStr []) in
                 if truthy n then n else PStr (py_str repr_container n));
               (lit "specs",
                 let sp := get d (lit "specs") (PStr []) in
                 if truthy sp then sp else PStr []);
               (lit "quantity", PInt (quantity_of d));
               (lit "price", PFloat (PyFloat.round2 price_num)) ]).

(** The keys the normaliser looks up in the response. *)
Definition read_keys : list str := lit "grand_total" :: map fst CATEGORY_KEYS.

(** The response without its other keys. *)
Definition relevant (d : dict) : dict :=
  filter (fun kv => existsb (PyStr.eqb (fst kv)) read_keys) d.

(** A response whose text is a JSON object with a grand total. *)
Definition json_response : response :=
  {| text_attr := Some (Ret (Some (litq "{`grand_total`: 10}")));
     parts_text := Ret None; content_text := Ret None; as_str := [] |}.

(** ** Notions for the properties of the suggestions *)

(** The lowered display name of a suggestion. *)
Definition lowered (str_lower : str -> str) (x : suggestion) : str :=
  str_lower (display_name x).

(** An entry of the country service: [{"name": {"common": name}, "cca2": cc}]. *)
Definition country (name cc : string) : pyval :=
  PDict [ (lit "name", PDict [ (lit "common", PStr (lit name)) ]);
          (lit "cca2", PStr (lit cc)) ].

Definition countries : pyval :=
  PList [ country "Oman" "OM"; country "Romania" "RO"; country "oman" "XX";
          country "Germany" "DE" ].

Definition ok_response (v : pyval) : http_response :=
  {| status_code := 200; json := Ret v |}.

Definition not_found : http_response :=
  {| status_code := 404; json := Ret (PDict [ (lit "status", PInt 404) ]) |}.
(** * Properties *)

(** ** Strings *)
Section StrFacts.

Lemma eqb_eq (a b : str) : PyStr.eqb a b = true <-> a = b.
Proof.
  revert b; induction a as [|x a IH]; intros [|y b]; simpl;
    try (split; [discriminate | discriminate]); try tauto.
  rewrite andb_true_iff, N.eqb_eq, IH.
  split; [intros [-> ->]; reflexivity | intros H; inversion H; auto].
Qed.

Lemma startswith_app (k s : str) :
  startswith k s = true <-> exists t, s = k ++ t.
Proof.
  revert s; induction k as [|x k IH]; intros s; simpl.
  - split; [exists s; reflexivity | reflexivity].
  - destruct s as [|y s].
    + split; [discriminate | intros [t H]; discriminate].
    + rewrite andb_true_iff, N.eqb_eq, IH.
      split.
      * intros [-> [t ->]]. exists t; reflexivity.
      * intros [t H]. inversion H; subst. split; [reflexivity | exists t; reflexivity].
Qed.

Lemma contains_app (k s : str) :
  contains k s = true <-> exists pre post, s = pre ++ k ++ post.
Proof.
  induction s as [|y s IH].
  - simpl. rewrite orb_false_r, startswith_app. split.
    + intros [t H]. exists [], t. exact H.
    + intros [pre [post H]]. destruct pre as [|p pre]; [|discriminate].
      exists post. exact H.
  - change (contains k (y :: s)) with (startswith k (y :: s) || contains k s).
    rewrite orb_true_iff, startswith_app, IH. split.
    + intros [[t H] | [pre [post H]]].
      * exists [], t. exact H.
      * exists (y :: pre), post. simpl. now rewrite H.
    + intros [pre [post H]]. destruct pre as [|p pre].
      * left. exists post. exact H.
      * right. simpl in H. inversion H; subst. exists pre, post. reflexivity.
Qed.

End StrFacts.

(** ** The currency detector *)

Lemma detect_loop_find (items : list (str * str)) (p : str) :
  detect_loop items p =
  match find (fun kv => contains (fst kv) p) items with
  | Some kv => snd kv
  | None => USD
  end.
Proof.
  induction items as [|[k v] rest IH]; simpl.
  - reflexivity.
  - destruct (contains k p); [reflexivity | exact IH].
Qed.

(** C6.  [detect_currency_code] lower-cases and trims its input and returns
    the code of the first key of [CURRENCY_MAP], in insertion order, that
    occurs in it as a substring, and "USD" when the input is empty or no
    key occurs; "Mumbai, India" gives "INR", the empty string and
    "Random Town" give "USD". *)
Theorem detect_currency_code_first_match :
  (forall place : str,
      detect_currency_code place =
      match find (fun kv => contains (fst kv) (lower (strip place))) CURRENCY_MAP with
      | Some kv => snd kv
      | None => lit "USD"
      end)
  /\ detect_currency_code (lit "Mumbai, India") = lit "INR"
  /\ detect_currency_code (lit "") = lit "USD"
  /\ detect_currency_code (lit "Random Town") = lit "USD".
Proof.
  split; [|repeat split; vm_compute; reflexivity].
  intros [|c place].
  - vm_compute. reflexivity.
  - unfold detect_currency_code. apply detect_loop_find.
Qed.

(** ** Floats: the sign of a rounded result *)
Section FloatSign.
Import PyFloat.

Lemma shr_1_nonneg (mrs : shr_record) :
  (0 <= shr_m mrs)%Z -> (0 <= shr_m (shr_1 mrs))%Z.
Proof.
  destruct mrs as [m r s]; simpl.
  destruct m as [|p|p]; simpl; try lia; intros H.
  destruct p; simpl; lia.
Qed.

Lemma iter_pos_shr_1_nonneg (p : positive) (mrs : shr_record) :
  (0 <= shr_m mrs)%Z -> (0 <= shr_m (iter_pos shr_1 p mrs))%Z.
Proof.
  revert mrs; induction p as [p IH|p IH|]; intros mrs H; simpl.
  - apply IH, IH, shr_1_nonneg, H.
  - apply IH, IH, H.
  - apply shr_1_nonneg, H.
Qed.

Lemma shr_fexp_nonneg (m e : Z) (l : location) :
  (0 <= m)%Z -> (0 <= shr_m (fst (shr_fexp prec emax m e l)))%Z.
Proof.
  intros H. unfold shr_fexp, shr.
  assert (H0 : (0 <= shr_m (shr_record_of_loc m l))%Z).
  { destruct l as [|[| |]]; simpl; exact H. }
  destruct (fexp prec emax (Zdigits2 m + e) - e)%Z; simpl; try exact H0.
  apply iter_pos_shr_1_nonneg, H0.
Qed.

Lemma round_nearest_even_nonneg (m : Z) (l : location) :
  (0 <= m)%Z -> (0 <= round_nearest_even m l)%Z.
Proof.
  intros H. destruct l as [|[| |]]; simpl; try lia.
  destruct (Z.even m); lia.
Qed.

Lemma binary_round_aux_sign (s : bool) (m e : Z) (l : location) :
  (0 <= m)%Z -> has_sign s (binary_round_aux prec emax s m e l).
Proof.
  intros H. unfold binary_round_aux.
  pose proof (shr_fexp_nonneg e l H) as H1.
  destruct (shr_fexp prec emax m e l) as [mrs' e'].
  simpl in H1.
  pose proof (round_nearest_even_nonneg (loc_of_shr_record mrs') H1) as H2.
  pose proof (shr_fexp_nonneg e' loc_Exact H2) as H3.
  destruct (shr_fexp prec emax _ e' loc_Exact) as [mrs'' e''].
  simpl in H3.
  destruct (shr_m mrs'') as [|p|p].
  - reflexivity.
  - destruct (e'' <=? emax - prec)%Z; simpl; reflexivity.
  - lia.
Qed.

Lemma binary_round_sign (s : bool) (m : positive) (e : Z) :
  has_sign s (binary_round prec emax s m e).
Proof.
  unfold binary_round.
  destruct (shl_align m e _) as [mz ez].
  apply binary_round_aux_sign. lia.
Qed.

Lemma div_sign (s1 s2 : bool) (m1 m2 : positive) (e1 e2 : Z) :
  has_sign (xorb s1 s2) (div (S754_finite s1 m1 e1) (S754_finite s2 m2 e2)).
Proof.
  unfold div, SFdiv.
  destruct (SFdiv_core_binary prec emax (Zpos m1) e1 (Zpos m2) e2) as [[mz ez] lz] eqn:E.
  apply binary_round_aux_sign.
  unfold SFdiv_core_binary in E.
  set (s := (e1 - e2 - _)%Z) in E.
  set (m' := match s with Zpos _ => _ | Z0 => _ | Zneg _ => _ end) in E.
  assert (Hm : (0 <= m')%Z).
  { subst m'. destruct s; try lia. apply Z.shiftl_nonneg. lia. }
  pose proof (Z.div_eucl_eq m' (Zpos m2) ltac:(lia)) as Hq.
  pose proof (Z.mod_pos_bound m' (Zpos m2) ltac:(lia)) as Hr.
  unfold Z.modulo in Hr.
  destruct (Z.div_eucl m' (Zpos m2)) as [q r].
  inversion E; subst. nia.
Qed.

Lemma of_decimal_sign (s : bool) (m : N) (e : Z) : has_sign s (of_decimal s m e).
Proof.
  unfold of_decimal. destruct m as [|p]; [reflexivity|].
  destruct e as [|k|k].
  - apply binary_round_sign.
  - apply binary_round_sign.
  - pose proof (div_sign s false p (Pos.pow 10 k) 0 0) as H.
    rewrite xorb_false_r in H. exact H.
Qed.

Lemma round2_sign (s : bool) (x : float) : has_sign s x -> has_sign s (round2 x).
Proof.
  destruct x as [s'|s'| |s' m e]; cbn [has_sign round2]; auto.
  intros ->. apply of_decimal_sign.
Qed.

Lemma has_sign_nonneg (x : float) : has_sign false x -> nonneg x = true.
Proof.
  destruct x as [s|s| |s m e]; cbn [has_sign]; intros Hx; subst;
    try reflexivity; try contradiction.
Qed.

Lemma add_sign (x y : float) :
  has_sign false x -> has_sign false y -> has_sign false (add x y).
Proof.
  unfold add, SFadd.
  destruct x as [sx|sx| |sx mx ex]; destruct y as [sy|sy| |sy my ey];
    cbn [has_sign]; intros Hx Hy; subst; try reflexivity; try contradiction.
  cbn [cond_Zopp].
  destruct (shl_align mx ex (Z.min ex ey)) as [m1 e1'].
  destruct (shl_align my ey (Z.min ex ey)) as [m2 e2'].
  cbn [fst]. unfold binary_normalize.
  change (Zpos m1 + Zpos m2)%Z with (Zpos (m1 + m2)).
  apply binary_round_sign.
Qed.

Lemma div_two_sign (x : float) : has_sign false x -> has_sign false (div x (of_Z 2)).
Proof.
  assert (E : of_Z 2 = S754_finite false 4503599627370496 (-51)) by (vm_compute; reflexivity).
  rewrite E.
  destruct x as [s|s| |s m e]; cbn [has_sign]; intros Hx; subst;
    try reflexivity; try contradiction.
  apply (div_sign false false).
Qed.

End FloatSign.

(** ** The matcher on the program's patterns *)
Section ReFacts.

(** *** The character classes exclude one another *)

Lemma below_checked (P : N -> bool) (bound : N) :
  forallb P (map N.of_nat (seq 0 (S (N.to_nat bound)))) = true ->
  forall c : N, (c <= bound)%N -> P c = true.
Proof.
  intros H c Hc. rewrite forallb_forall in H. apply H.
  rewrite in_map_iff. exists (N.to_nat c). split.
  - apply N2Nat.id.
  - apply in_seq. lia.
Qed.

Lemma isspace_cases (c : char) : isspace c = true -> In c whitespace.
Proof.
  unfold isspace, in_range. intros H. unfold whitespace. cbn [In].
  repeat (apply orb_true_iff in H; destruct H as [H|H]);
    repeat (apply andb_true_iff in H; destruct H as [H ?]);
    repeat match goal with
           | h : (_ <=? _)%N = true |- _ => apply N.leb_le in h
           | h : (_ =? _)%N = true |- _ => apply N.eqb_eq in h
           end; lia.
Qed.

Lemma space_not_digit_comma_dot (c : char) :
  space c = true -> digit_comma_dot c = false.
Proof.
  intros H. apply negb_true_iff.
  assert (E : forallb (fun c => negb (digit_comma_dot c)) whitespace = true)
    by (vm_compute; reflexivity).
  rewrite forallb_forall in E. apply E, isspace_cases, H.
Qed.

Lemma space_not_digit (c : char) : space c = true -> digit c = false.
Proof.
  intros H. apply space_not_digit_comma_dot in H.
  unfold digit_comma_dot in H. unfold digit.
  destruct (isdecimal c); [discriminate | reflexivity].
Qed.

Lemma digit_comma_dot_not_space (c : char) :
  digit_comma_dot c = true -> space c = false.
Proof.
  intros H. destruct (space c) eqn:E; [|reflexivity].
  apply space_not_digit_comma_dot in E. congruence.
Qed.

Lemma dash_cases (c : char) : dash c = true -> c = hyphen \/ c = en_dash.
Proof.
  unfold dash. intros H. apply orb_true_iff in H.
  destruct H as [H|H]; apply N.eqb_eq in H; auto.
Qed.

Lemma dash_not_space (c : char) : dash c = true -> space c = false.
Proof. intros H. destruct (dash_cases c H); subst; vm_compute; reflexivity. Qed.

Lemma dash_not_digit_comma_dot (c : char) :
  dash c = true -> digit_comma_dot c = false.
Proof. intros H. destruct (dash_cases c H); subst; vm_compute; reflexivity. Qed.

Lemma space_not_dash (c : char) : space c = true -> dash c = false.
Proof.
  intros H. destruct (dash c) eqn:E; [|reflexivity].
  apply dash_not_space in E. congruence.
Qed.

Lemma digit_comma_dot_not_dash (c : char) :
  digit_comma_dot c = true -> dash c = false.
Proof.
  intros H. destruct (dash c) eqn:E; [|reflexivity].
  apply dash_not_digit_comma_dot in E. congruence.
Qed.

(** *** Stars *)

Lemma takewhile_dropwhile (p : char -> bool) (s : str) :
  takewhile p s ++ dropwhile p s = s.
Proof.
  induction s as [|c s IH]; simpl; [reflexivity|].
  destruct (p c); simpl; [now rewrite IH | reflexivity].
Qed.

Lemma consumed_app (pre rest : str) : consumed (pre ++ rest) rest = pre.
Proof.
  unfold consumed. rewrite length_app.
  replace (List.length pre + List.length rest - List.length rest)%nat
    with (List.length pre) by lia.
  rewrite firstn_app, Nat.sub_diag, firstn_all. simpl. apply app_nil_r.
Qed.

(** A greedy star whose continuation cannot go on from a character of the
    class takes the whole run. *)
Lemma star_greedy_blocked (A : Type) (p : char -> bool) (k : str -> option A) :
  (forall c t, p c = true -> k (c :: t) = None) ->
  forall s, star_greedy p s k = k (dropwhile p s).
Proof.
  intros Hk. induction s as [|c s IH]; simpl; [reflexivity|].
  destruct (p c) eqn:E; [|reflexivity].
  rewrite IH. destruct (k (dropwhile p s)); [reflexivity|].
  apply Hk, E.
Qed.

(** A greedy star whose continuation accepts the end of the run takes the
    whole run. *)
Lemma star_greedy_accepts (A : Type) (p : char -> bool) (k : str -> option A) :
  forall s a, k (dropwhile p s) = Some a -> star_greedy p s k = Some a.
Proof.
  induction s as [|c s IH]; simpl; intros a H; [exact H|].
  destruct (p c) eqn:E; [|exact H].
  now rewrite (IH a H).
Qed.

(** Whatever a greedy star returns comes from its continuation on a
    suffix. *)
Lemma star_greedy_sound (A : Type) (p : char -> bool) (k : str -> option A) :
  forall s a, star_greedy p s k = Some a ->
  exists s1 s2, s = s1 ++ s2 /\ k s2 = Some a.
Proof.
  induction s as [|c s IH]; simpl; intros a H.
  - exists [], []. auto.
  - destruct (p c).
    + destruct (star_greedy p s k) eqn:E.
      * inversion H; subst. destruct (IH a eq_refl) as (s1 & s2 & -> & H2).
        exists (c :: s1), s2. auto.
      * exists [], (c :: s). auto.
    + exists [], (c :: s). auto.
Qed.

(** *** The range pattern *)

Lemma range_re_unfold : range_re = Seq (Star false not_newline) range_tail.
Proof. reflexivity. Qed.

Lemma range_tail_at (A : Type) (K : str -> list str -> option A) :
  (forall r c, exists a, K r c = Some a) ->
  forall t caps,
    rmatch range_tail t caps K =
    match range_at t with
    | Some (a, b, rest) => K rest ((caps ++ [a]) ++ [b])
    | None => None
    end.
Proof.
  intros HK t caps. unfold range_tail. cbn [rmatch].
  destruct t as [|a0 t1]; [reflexivity|].
  unfold range_at. destruct (digit a0) eqn:Ea; [|reflexivity].
  rewrite star_greedy_blocked.
  2:{ intros c u Hc. cbn [star_greedy].
      rewrite (digit_comma_dot_not_space c Hc), (digit_comma_dot_not_dash c Hc).
      reflexivity. }
  rewrite star_greedy_blocked.
  2:{ intros c u Hc. rewrite (space_not_dash c Hc). reflexivity. }
  destruct (dropwhile space (dropwhile digit_comma_dot t1)) as [|d t3]; [reflexivity|].
  destruct (dash d) eqn:Ed; [|reflexivity].
  rewrite star_greedy_blocked.
  2:{ intros c u Hc. rewrite (space_not_digit c Hc). reflexivity. }
  destruct (dropwhile space t3) as [|b0 t4]; [reflexivity|].
  destruct (digit b0) eqn:Eb; [|reflexivity].
  assert (E1 : consumed (a0 :: t1) (dropwhile digit_comma_dot t1)
               = a0 :: takewhile digit_comma_dot t1).
  { rewrite <- (takewhile_dropwhile digit_comma_dot t1) at 1.
    apply (consumed_app (a0 :: takewhile digit_comma_dot t1)). }
  assert (E2 : consumed (b0 :: t4) (dropwhile digit_comma_dot t4)
               = b0 :: takewhile digit_comma_dot t4).
  { rewrite <- (takewhile_dropwhile digit_comma_dot t4) at 1.
    apply (consumed_app (b0 :: takewhile digit_comma_dot t4)). }
  destruct (HK (dropwhile not_newline (dropwhile digit_comma_dot t4))
               ((caps ++ [a0 :: takewhile digit_comma_dot t1])
                  ++ [b0 :: takewhile digit_comma_dot t4])) as [a Ha].
  cbv beta iota. transitivity (Some a); [|symmetry; exact Ha].
  apply star_greedy_accepts. apply star_greedy_accepts.
  rewrite E1, E2. exact Ha.
Qed.

Lemma star_lazy_first_range (A : Type) (K : str -> list str -> option A) :
  (forall r c, exists a, K r c = Some a) ->
  forall s,
    star_lazy not_newline s (fun s' => rmatch range_tail s' [] K) =
    match first_range s with
    | Some (a, b, rest) => K rest [a; b]
    | None => None
    end.
Proof.
  intros HK. induction s as [|c s IH].
  - cbn [star_lazy first_range]. rewrite (range_tail_at K HK). reflexivity.
  - cbn [star_lazy first_range]. rewrite (range_tail_at K HK).
    destruct (range_at (c :: s)) as [[[a b] rest]|].
    + cbn [app]. destruct (HK rest [a; b]) as [x Hx]. now rewrite Hx.
    + destruct (not_newline c); [exact IH | reflexivity].
Qed.

(** [re.match] of the range pattern is the scanner. *)
Lemma rematch_range_re (s : str) :
  rematch range_re s =
  match first_range s with
  | Some (a, b, rest) =>
      Some {| group0 := consumed s rest; groups := [a; b]; after := rest |}
  | None => None
  end.
Proof.
  unfold rematch. rewrite range_re_unfold. cbn [rmatch].
  apply star_lazy_first_range. intros r c. eexists. reflexivity.
Qed.

End ReFacts.

(** ** Reading a number made of digits and dots *)
Section NumberText.
Import PyFloat PyNum.

Lemma decimal_in_bound (zs : list N) (c : char) (d : N) :
  decimal_in zs c = Some d -> (d <= 9)%N.
Proof.
  induction zs as [|z zs IH]; simpl; [discriminate|].
  unfold in_range. destruct ((z <=? c) && (c <=? z + 9))%N eqn:E; [|exact IH].
  intros H. inversion H; subst.
  apply andb_true_iff in E. destruct E as [E1 E2].
  apply N.leb_le in E1, E2. lia.
Qed.

Lemma ascii_decimal (c : char) :
  (c < 127)%N -> isdecimal c = true -> is_ascii_digit c = true.
Proof.
  intros Hc H.
  assert (E : (negb (isdecimal c) || is_ascii_digit c) = true).
  { apply (@below_checked (fun c => negb (isdecimal c) || is_ascii_digit c) 126%N).
    - vm_compute. reflexivity.
    - lia. }
  rewrite H in E. exact E.
Qed.

Lemma plain_digit_char (d : N) : (d <= 9)%N -> plain (48 + d)%N = true.
Proof.
  intros H. unfold plain, is_ascii_digit, in_range.
  apply orb_true_iff. left. apply andb_true_iff. split; apply N.leb_le; lia.
Qed.

Lemma to_ascii_number_plain (t : str) :
  Forall (fun c => digit_or_dot c = true) t ->
  Forall (fun c => plain c = true) (to_ascii_number t).
Proof.
  induction 1 as [|c t Hc Ht IH]; cbn [to_ascii_number]; [constructor|].
  unfold digit_or_dot in Hc. apply orb_true_iff in Hc.
  destruct (c <? 127)%N eqn:E.
  - constructor; [|exact IH].
    apply N.ltb_lt in E. unfold plain.
    destruct Hc as [Hc|Hc]; [|now rewrite Hc, orb_true_r].
    now rewrite (ascii_decimal E Hc).
  - apply N.ltb_ge in E.
    destruct Hc as [Hc|Hc]; [|apply N.eqb_eq in Hc; unfold dot in Hc; lia].
    assert (Hs : isspace c = false).
    { apply (digit_comma_dot_not_space c). unfold digit_comma_dot. now rewrite Hc. }
    rewrite Hs.
    unfold isdecimal in Hc. destruct (decimal_value c) as [d|] eqn:Ed; [|discriminate].
    constructor; [|exact IH].
    apply plain_digit_char. exact (decimal_in_bound _ _ Ed).
Qed.

Lemma c_lstrip_plain (u : str) :
  Forall (fun c => plain c = true) u -> Forall (fun c => plain c = true) (c_lstrip u).
Proof.
  induction 1 as [|c u Hc Hu IH]; simpl; [constructor|].
  destruct (c_isspace c); [exact IH | now constructor].
Qed.

Lemma c_strip_plain (u : str) :
  Forall (fun c => plain c = true) u -> Forall (fun c => plain c = true) (c_strip u).
Proof.
  intros H. unfold c_strip.
  apply Forall_rev, c_lstrip_plain, Forall_rev, c_lstrip_plain, H.
Qed.

Lemma drop_underscores_plain (u : str) :
  Forall (fun c => plain c = true) u ->
  forall prev t, drop_underscores prev u = Some t -> Forall (fun c => plain c = true) t.
Proof.
  induction 1 as [|c u Hc Hu IH]; simpl; intros prev t H.
  - destruct (prev =? 95)%N; inversion H; constructor.
  - destruct (c =? 95)%N.
    + destruct (is_ascii_digit prev); [|discriminate]. exact (IH _ _ H).
    + destruct ((prev =? 95)%N && negb (is_ascii_digit c)); [discriminate|].
      destruct (drop_underscores c u) as [t'|] eqn:E; [|discriminate].
      inversion H; subst. constructor; [exact Hc | exact (IH _ _ E)].
Qed.

Lemma plain_sign_of (t : str) :
  Forall (fun c => plain c = true) t -> sign_of t = (false, t).
Proof.
  intros H. destruct H as [|c t Hc Ht]; [reflexivity|].
  unfold sign_of.
  destruct (c =? 45)%N eqn:E1; [apply N.eqb_eq in E1; subst; discriminate|].
  destruct (c =? 43)%N eqn:E2; [apply N.eqb_eq in E2; subst; discriminate|].
  reflexivity.
Qed.

Lemma plain_not_word (t w : str) :
  Forall (fun c => plain c = true) t ->
  match w with c0 :: _ => plain c0 | [] => true end = false ->
  PyStr.eqb (ascii_lower t) w = false.
Proof.
  intros H Hw. destruct w as [|c0 w]; [discriminate|].
  destruct H as [|c t Hc Ht]; [reflexivity|].
  simpl. destruct (in_range 65 90 c) eqn:E.
  - unfold plain, is_ascii_digit, in_range in *.
    apply andb_true_iff in E. destruct E as [E1 E2]. apply N.leb_le in E1, E2.
    apply orb_true_iff in Hc. destruct Hc as [Hc|Hc].
    + apply andb_true_iff in Hc. destruct Hc as [H1 H2]. apply N.leb_le in H1, H2. lia.
    + apply N.eqb_eq in Hc. unfold dot in Hc. lia.
  - destruct (c =? c0)%N eqn:E0; [|reflexivity].
    apply N.eqb_eq in E0. subst. congruence.
Qed.

(** A string of digits and dots that [float()] accepts reads as a number
    that is not negative. *)
Lemma float_of_str_sign (t : str) (x : float) :
  Forall (fun c => digit_or_dot c = true) t ->
  float_of_str t = Some x -> has_sign false x.
Proof.
  intros Ht. unfold float_of_str.
  destruct (drop_underscores 0%N (c_strip (to_ascii_number t))) as [u|] eqn:E; [|discriminate].
  assert (Hu : Forall (fun c => plain c = true) u).
  { eapply drop_underscores_plain; [|exact E].
    apply c_strip_plain, to_ascii_number_plain, Ht. }
  rewrite (plain_sign_of Hu). cbv beta iota.
  rewrite (@plain_not_word u (lit "inf") Hu eq_refl).
  rewrite (@plain_not_word u (lit "infinity") Hu eq_refl).
  rewrite (@plain_not_word u (lit "nan") Hu eq_refl).
  cbn [orb]. unfold decimal_of.
  destruct (span_digits u) as [ip s1].
  destruct (match s1 with
            | [] => ([], s1)
            | c :: s1' => if (c =? dot)%N then span_digits s1' else ([], s1)
            end) as [fp s2].
  destruct (ip ++ fp); [discriminate|].
  destruct (exponent_of s2); [|discriminate].
  intros H. inversion H. apply of_decimal_sign.
Qed.

End NumberText.

(** ** [parse_number] *)
Section ParseNumber.
Import PyFloat PyNum.

Variable repr_container : pyval -> str.
Notation parse_number := (parse_number repr_container).

Lemma replace_filter (c : char) (s : str) :
  replace c [] s = filter (fun x => negb (x =? c)%N) s.
Proof.
  unfold replace. induction s as [|x s IH]; simpl; [reflexivity|].
  destruct (x =? c)%N; simpl; now rewrite IH.
Qed.

Lemma replace_twice (c : char) (s : str) :
  replace c [] (replace c [] s) = replace c [] s.
Proof.
  rewrite !replace_filter. induction s as [|x s IH]; simpl; [reflexivity|].
  destruct (x =? c)%N eqn:E; simpl; [exact IH|].
  rewrite E. simpl. now rewrite IH.
Qed.

Lemma rematch_chr (p : char -> bool) (c : char) (s : str) :
  rematch (Chr p) (c :: s) =
  if p c then Some {| group0 := [c]; groups := []; after := s |} else None.
Proof.
  unfold rematch. cbn [rmatch]. destruct (p c); [|reflexivity].
  change (c :: s) with ([c] ++ s). now rewrite consumed_app.
Qed.

Lemma sub_from_chr (p : char -> bool) (fuel : nat) (s : str) :
  (List.length s <= fuel)%nat ->
  sub_from fuel (Chr p) [] s = filter (fun c => negb (p c)) s.
Proof.
  revert s; induction fuel as [|fuel IH]; intros [|c s] H; simpl in H; try lia;
    try reflexivity.
  cbn [sub_from]. rewrite rematch_chr.
  cbn [filter]. destruct (p c); cbn [group0 after negb app].
  - apply IH. lia.
  - f_equal. apply IH. lia.
Qed.

(** What is left when every character that is not a digit, a dot or a
    comma is taken out. *)
Lemma cleaned_filter (s : str) :
  Re.sub not_digit_dot_comma_re [] s = filter digit_comma_dot s.
Proof.
  unfold Re.sub, not_digit_dot_comma_re. rewrite sub_from_chr by lia.
  apply filter_ext. intros c. apply negb_involutive.
Qed.

Lemma without_commas (s : str) :
  Forall (fun c => digit_comma_dot c = true) s ->
  Forall (fun c => digit_or_dot c = true) (replace comma [] s).
Proof.
  rewrite replace_filter. induction 1 as [|c s Hc Hs IH]; simpl; [constructor|].
  destruct (c =? comma)%N eqn:E; simpl; [exact IH|].
  constructor; [|exact IH].
  unfold digit_comma_dot in Hc. unfold digit_or_dot.
  rewrite E, orb_false_r in Hc. exact Hc.
Qed.

Lemma filter_Forall (p : char -> bool) (s : str) :
  Forall (fun c => p c = true) (filter p s).
Proof.
  induction s as [|c s IH]; simpl; [constructor|].
  destruct (p c) eqn:E; [constructor; assumption | exact IH].
Qed.

(** Outside the range branch [parse_number] reads the digits and dots of
    its input, and gives 0.0 when they are no number. *)
Lemma parse_number_plain (s : str) :
  rematch range_re (strip s) = None ->
  parse_number (PStr s) =
  Ret (match float_of_str (digits_and_dots s) with
       | Some num => round2 num
       | None => zero
       end).
Proof.
  intros H. unfold parse_number. cbn [py_str]. unfold digits_and_dots.
  destruct (strip s) as [|c s'] eqn:Es; [reflexivity|].
  rewrite H, cleaned_filter.
  destruct (filter digit_comma_dot (c :: s')) as [|x cl] eqn:Ec; [reflexivity|].
  destruct (1 <? count dot (x :: cl))%nat; [rewrite replace_twice|];
    destruct (float_of_str (replace comma [] (x :: cl))); reflexivity.
Qed.

Lemma takewhile_Forall (p : char -> bool) (s : str) :
  Forall (fun c => p c = true) (takewhile p s).
Proof.
  induction s as [|c s IH]; simpl; [constructor|].
  destruct (p c) eqn:E; constructor; assumption.
Qed.

Lemma range_at_bounds (t a b rest : str) :
  range_at t = Some (a, b, rest) ->
  Forall (fun c => digit_comma_dot c = true) a /\
  Forall (fun c => digit_comma_dot c = true) b.
Proof.
  unfold range_at. destruct t as [|a0 t1]; [discriminate|].
  destruct (digit a0) eqn:Ea; [|discriminate].
  destruct (dropwhile space (dropwhile digit_comma_dot t1)) as [|d t3]; [discriminate|].
  destruct (dash d); [|discriminate].
  destruct (dropwhile space t3) as [|b0 t4]; [discriminate|].
  destruct (digit b0) eqn:Eb; [|discriminate].
  intros H. inversion H; subst.
  unfold digit in Ea, Eb.
  split; (constructor; [unfold digit_comma_dot; now rewrite ?Ea, ?Eb | apply takewhile_Forall]).
Qed.

Lemma first_range_bounds (s a b rest : str) :
  first_range s = Some (a, b, rest) ->
  Forall (fun c => digit_comma_dot c = true) a /\
  Forall (fun c => digit_comma_dot c = true) b.
Proof.
  induction s as [|c s IH]; cbn [first_range].
  - destruct (range_at []) as [r|] eqn:E; [|discriminate].
    intros H. inversion H; subst. exact (range_at_bounds _ E).
  - destruct (range_at (c :: s)) as [r|] eqn:E.
    + intros H. inversion H; subst. exact (range_at_bounds _ E).
    + destruct (not_newline c); [exact IH | discriminate].
Qed.

(** In the range branch [parse_number] gives the mean of the two bounds,
    rounded to two decimals, when both are numbers once their commas are
    taken out. *)
Lemma parse_number_range (s a b rest : str) (x y : float) :
  first_range (strip s) = Some (a, b, rest) ->
  float_of_str (replace comma [] a) = Some x ->
  float_of_str (replace comma [] b) = Some y ->
  parse_number (PStr s) = Ret (round2 (div (add x y) two)).
Proof.
  intros H Hx Hy. unfold parse_number. cbn [py_str].
  destruct (strip s) as [|c s'] eqn:Es; [discriminate|].
  rewrite rematch_range_re, H. cbn [groups nth].
  unfold float_or_raise. rewrite Hx, Hy. reflexivity.
Qed.

Lemma range_mean_nonneg (a b : str) (x y : float) :
  Forall (fun c => digit_comma_dot c = true) a ->
  Forall (fun c => digit_comma_dot c = true) b ->
  float_of_str (replace comma [] a) = Some x ->
  float_of_str (replace comma [] b) = Some y ->
  nonneg (round2 (div (add x y) two)) = true.
Proof.
  intros Ha Hb Hx Hy.
  apply has_sign_nonneg, round2_sign, div_two_sign, add_sign.
  - exact (float_of_str_sign (without_commas Ha) Hx).
  - exact (float_of_str_sign (without_commas Hb) Hy).
Qed.

End ParseNumber.

(** ** The number parser: the claims *)
Section NumberClaims.
Import PyFloat PyNum.

Variable repr_container : pyval -> str.
Notation parse_number := (parse_number repr_container).

Lemma rematch_range_re_nil : rematch range_re [] = None.
Proof. reflexivity. Qed.

(** C1 (amended).  [parse_number] gives 0.0 for [None]; a float is returned
    as it is and an int as [float(value)], whatever its sign and its
    decimals; a string in which no range is found is read without raising,
    and the result is not negative, is a value of [round(_, 2)], and is 0.0
    when the string is empty or its digits and dots are no number; a string
    with a range whose two bounds are numbers gives a result that is not
    negative and is a value of [round(_, 2)] as well. *)
Theorem parse_number_contract :
  parse_number PNone = Ret zero
  /\ (forall x, parse_number (PFloat x) = Ret x)
  /\ (forall z x, of_int z = Some x -> parse_number (PInt z) = Ret x)
  /\ (forall s, rematch range_re (strip s) = None ->
        exists x, parse_number (PStr s) = Ret x
          /\ nonneg x = true
          /\ (exists y, x = round2 y)
          /\ (strip s = [] -> x = zero)
          /\ (float_of_str (digits_and_dots s) = None -> x = zero))
  /\ (forall s m a b,
        rematch range_re (strip s) = Some m ->
        float_of_str (replace comma [] (nth 0 (groups m) [])) = Some a ->
        float_of_str (replace comma [] (nth 1 (groups m) [])) = Some b ->
        exists x, parse_number (PStr s) = Ret x
          /\ nonneg x = true
          /\ (exists y, x = round2 y)).
Proof.
  split; [reflexivity|].
  split; [reflexivity|].
  split.
  { intros z x H. cbn. unfold float_of_int. now rewrite H. }
  split.
  - intros s H. rewrite (parse_number_plain repr_container s H).
    eexists. split; [reflexivity|].
    pose proof (@float_of_str_sign (digits_and_dots s)) as Hsign.
    assert (Hd : Forall (fun c => digit_or_dot c = true) (digits_and_dots s))
      by apply without_commas, filter_Forall.
    destruct (float_of_str (digits_and_dots s)) as [num|] eqn:E.
    + split; [apply has_sign_nonneg, round2_sign, (Hsign num Hd eq_refl)|].
      split; [exists num; reflexivity|].
      split; [|discriminate].
      intros Hs. unfold digits_and_dots in E. rewrite Hs in E. discriminate.
    + split; [reflexivity|].
      split; [exists zero; reflexivity|].
      split; reflexivity.
  - intros s m a b Hm Ha Hb.
    rewrite rematch_range_re in Hm.
    destruct (first_range (strip s)) as [[[ga gb] rest]|] eqn:E; [|discriminate].
    inversion Hm; subst m. cbn [groups nth] in Ha, Hb.
    rewrite (parse_number_range repr_container s E Ha Hb).
    destruct (first_range_bounds _ E) as [Hga Hgb].
    eexists. split; [reflexivity|].
    split; [exact (range_mean_nonneg Hga Hgb Ha Hb)|].
    eexists. reflexivity.
Qed.

(** C7 (amended).  On a string in which the range pattern matches and
    whose two bounds, thousands separators taken out, are numbers,
    [parse_number] gives the mean of the two bounds rounded to two
    decimals; and each documented example holds: "15,000 - 18,000", "15,000-18,000" and the
    same with an en dash give 16500.0, "$1,200.50" gives 1200.5,
    "$2,500.75" gives 2500.75, the empty string, "abc", "3.5.2" and [None]
    give 0.0, and the int 1200 gives 1200.0. *)
Theorem parse_number_examples :
  (forall s m a b,
      rematch range_re (strip s) = Some m ->
      float_of_str (replace comma [] (nth 0 (groups m) [])) = Some a ->
      float_of_str (replace comma [] (nth 1 (groups m) [])) = Some b ->
      parse_number (PStr s) = Ret (round2 (div (add a b) two)))
  /\ parse_number (PStr (lit "15,000 - 18,000")) = Ret (of_Z 16500)
  /\ parse_number (PStr (lit "15,000-18,000")) = Ret (of_Z 16500)
  /\ parse_number (PStr (lit "15,000 " ++ en_dash :: lit " 18,000")) = Ret (of_Z 16500)
  /\ parse_number (PStr (lit "$1,200.50")) = Ret (of_decimal false 12005 (-1))
  /\ parse_number (PStr (lit "$2,500.75")) = Ret (of_decimal false 250075 (-2))
  /\ parse_number (PStr (lit "")) = Ret zero
  /\ parse_number (PStr (lit "abc")) = Ret zero
  /\ parse_number (PStr (lit "3.5.2")) = Ret zero
  /\ parse_number PNone = Ret zero
  /\ parse_number (PInt 1200) = Ret (of_Z 1200).
Proof.
  split; [|repeat split; vm_compute; reflexivity].
  intros s m a b Hm Ha Hb.
  rewrite rematch_range_re in Hm.
  destruct (first_range (strip s)) as [[[ga gb] rest]|] eqn:E; [|discriminate].
  inversion Hm; subst m. cbn [groups nth] in Ha, Hb.
  exact (parse_number_range repr_container s E Ha Hb).
Qed.

(** *** Ranges inside other text *)

Lemma takewhile_app (p : char -> bool) (l r : str) :
  forallb p l = true ->
  match r with c :: _ => p c | [] => false end = false ->
  takewhile p (l ++ r) = l.
Proof.
  intros Hl Hr. induction l as [|c l IH]; simpl in *.
  - destruct r as [|c r]; [reflexivity|]. simpl. now rewrite Hr.
  - apply andb_true_iff in Hl. destruct Hl as [Hc Hl]. rewrite Hc. f_equal. auto.
Qed.

Lemma dropwhile_app (p : char -> bool) (l r : str) :
  forallb p l = true ->
  match r with c :: _ => p c | [] => false end = false ->
  dropwhile p (l ++ r) = r.
Proof.
  intros Hl Hr. induction l as [|c l IH]; simpl in *.
  - destruct r as [|c r]; [reflexivity|]. simpl. now rewrite Hr.
  - apply andb_true_iff in Hl. destruct Hl as [Hc Hl]. rewrite Hc. auto.
Qed.

Lemma range_at_here (a ws1 ws2 b post : str) (d : char) :
  is_bound a = true -> forallb space ws1 = true -> dash d = true ->
  forallb space ws2 = true -> is_bound b = true -> ends_run post = true ->
  range_at (a ++ ws1 ++ d :: ws2 ++ b ++ post)
  = Some (a, b, dropwhile not_newline post).
Proof.
  intros Ha Hw1 Hd Hw2 Hb Hp.
  destruct a as [|a0 a']; [discriminate|].
  destruct b as [|b0 b']; [discriminate|].
  cbn [is_bound] in Ha, Hb.
  apply andb_true_iff in Ha, Hb. destruct Ha as [Ha0 Ha'], Hb as [Hb0 Hb'].
  assert (Hafter_a : match ws1 ++ d :: ws2 ++ b0 :: b' ++ post with
                     | c :: _ => digit_comma_dot c | [] => false end = false).
  { destruct ws1 as [|w ws1]; cbn [app].
    - apply dash_not_digit_comma_dot, Hd.
    - cbn [forallb] in Hw1. apply andb_true_iff in Hw1.
      apply space_not_digit_comma_dot, Hw1. }
  assert (Hafter_b : match post with c :: _ => digit_comma_dot c | [] => false end = false).
  { destruct post as [|c post]; [reflexivity|]. cbn [ends_run] in Hp.
    now apply negb_true_iff in Hp. }
  unfold range_at. cbn [app]. rewrite Ha0.
  rewrite (dropwhile_app _ _ _ Ha' Hafter_a), (takewhile_app _ _ _ Ha' Hafter_a).
  rewrite (dropwhile_app space ws1 _ Hw1) by (cbn; apply dash_not_space, Hd).
  rewrite Hd.
  rewrite (dropwhile_app space ws2 _ Hw2) by (cbn; apply digit_comma_dot_not_space;
    unfold digit_comma_dot; unfold digit in Hb0; now rewrite Hb0).
  cbn [app]. rewrite Hb0.
  rewrite (dropwhile_app _ _ _ Hb' Hafter_b), (takewhile_app _ _ _ Hb' Hafter_b).
  reflexivity.
Qed.

Lemma first_range_skip (pre rest : str) :
  no_range_before pre rest = true -> first_range (pre ++ rest) = first_range rest.
Proof.
  induction pre as [|c pre IH]; [reflexivity|].
  cbn [no_range_before]. cbn [app first_range].
  change (c :: pre ++ rest) with ((c :: pre) ++ rest).
  destruct (range_at ((c :: pre) ++ rest)); [discriminate|].
  intros H. apply andb_true_iff in H. destruct H as [Hc H].
  rewrite Hc. exact (IH H).
Qed.

Lemma first_range_here (t : str) (r : str * str * str) :
  range_at t = Some r -> first_range t = Some r.
Proof. intros H. destruct t; cbn [first_range]; now rewrite H. Qed.

(** C10 (amended).  The range branch applies to a range inside other text:
    when the trimmed input is [pre], a bound, white space, a hyphen or an
    en dash, white space, a bound and [post], where [pre] holds no newline
    and no earlier range starts in it, each bound is a digit followed by
    digits, commas and dots and is a number once its commas are taken out,
    and [post] does not go on with a digit, a comma or a dot, then
    [parse_number] gives the mean of the two bounds rounded to two
    decimals. *)
Theorem parse_number_embedded_range
    (s pre a ws1 ws2 b post : str) (d : char) (x y : float) :
  strip s = pre ++ a ++ ws1 ++ d :: ws2 ++ b ++ post ->
  no_range_before pre (a ++ ws1 ++ d :: ws2 ++ b ++ post) = true ->
  is_bound a = true -> forallb space ws1 = true -> dash d = true ->
  forallb space ws2 = true -> is_bound b = true -> ends_run post = true ->
  float_of_str (replace comma [] a) = Some x ->
  float_of_str (replace comma [] b) = Some y ->
  parse_number (PStr s) = Ret (round2 (div (add x y) two)).
Proof.
  intros Hs Hpre Ha Hw1 Hd Hw2 Hb Hp Hx Hy.
  apply (@parse_number_range repr_container s a b (dropwhile not_newline post)); auto.
  rewrite Hs, (first_range_skip _ _ Hpre).
  apply first_range_here, range_at_here; assumption.
Qed.

End NumberClaims.

(** C1, as stated, fails on a negative number: [parse_number(-5)] is -5.0. *)
Lemma parse_number_negative :
  parse_number repr_unused (PInt (-5)) = Ret (PyFloat.of_Z (-5))
  /\ PyFloat.nonneg (PyFloat.of_Z (-5)) = false.
Proof. split; vm_compute; reflexivity. Qed.

(** A float is returned with all its decimals: [parse_number(0.004)] is
    0.004, which [round(_, 2)] would turn into 0.0. *)
Lemma parse_number_unrounded :
  parse_number repr_unused (PFloat (PyFloat.of_decimal false 4 (-3)))
  = Ret (PyFloat.of_decimal false 4 (-3))
  /\ PyFloat.round2 (PyFloat.of_decimal false 4 (-3)) = PyFloat.zero.
Proof. split; vm_compute; reflexivity. Qed.

(** The range branch has no [try]: on "1.2.3-4" the ValueError of
    [float("1.2.3")] escapes. *)
Lemma parse_number_range_raises :
  parse_number repr_unused (PStr (lit "1.2.3-4"))
  = Raise (Exn ValueError (lit "could not convert string to float: '1.2.3'")).
Proof. vm_compute. reflexivity. Qed.

(** C7, as stated, fails on a range whose mean has more than two decimals:
    "1.001-1.002" gives 1.0, and the mean of the bounds is 1.0015. *)
Lemma parse_number_range_mean_rounded :
  parse_number repr_unused (PStr (lit "1.001-1.002")) = Ret (PyFloat.of_Z 1)
  /\ PyFloat.div (PyFloat.add (PyFloat.of_decimal false 1001 (-3))
                              (PyFloat.of_decimal false 1002 (-3))) two
     = PyFloat.of_decimal false 10015 (-4)
  /\ PyFloat.eqb (PyFloat.of_decimal false 10015 (-4)) (PyFloat.of_Z 1) = false.
Proof. repeat split; vm_compute; reflexivity. Qed.

(** The contract at "$1,200.50". *)
Lemma parse_number_contract_witness :
  exists x, parse_number repr_unused (PStr (lit "$1,200.50")) = Ret x
            /\ PyFloat.nonneg x = true.
Proof.
  destruct (proj1 (proj2 (proj2 (proj2 (parse_number_contract repr_unused))))
              (lit "$1,200.50") eq_refl) as (x & H & Hn & _).
  exists x. split; assumption.
Defined.

(** C10, as stated, fails when a newline stands before the range: the input
    "a", newline, "1000-2000" gives 10002000.0 and not 1500.0. *)
Lemma parse_number_range_after_newline :
  parse_number repr_unused (PStr (lit "a" ++ newline :: lit "1000-2000"))
  = Ret (PyFloat.of_Z 10002000)
  /\ PyFloat.eqb (PyFloat.of_Z 10002000) (PyFloat.of_Z 1500) = false.
Proof. split; vm_compute; reflexivity. Qed.

(** The claim's own example: "around 1000-2000 total" gives 1500.0. *)
Lemma parse_number_embedded_range_witness :
  parse_number repr_unused (PStr (lit "around 1000-2000 total"))
  = Ret (PyFloat.of_Z 1500).
Proof.
  rewrite (@parse_number_embedded_range repr_unused
             (lit "around 1000-2000 total") (lit "around ") (lit "1000") [] []
             (lit "2000") (lit " total") hyphen
             (PyFloat.of_Z 1000) (PyFloat.of_Z 2000));
    vm_compute; reflexivity.
Defined.

(** ** Parsing what [str] prints *)
Section Reparse.
Import PyFloat PyNum.

Variable repr_container : pyval -> str.
Notation parse_number := (parse_number repr_container).



Lemma lstrip_head (t : str) :
  match t with c :: _ => isspace c = false | [] => True end -> lstrip t = t.
Proof. destruct t as [|c t]; [reflexivity|]. cbn [lstrip]. now intros ->. Qed.


Lemma dropwhile_Forall (P : char -> Prop) (p : char -> bool) (t : str) :
  Forall P t -> Forall P (dropwhile p t).
Proof.
  induction 1 as [|c t Hc Ht IH]; cbn [dropwhile]; [constructor|].
  destruct (p c); [exact IH | now constructor].
Qed.

(** A text without a hyphen or an en dash holds no range. *)
Lemma first_range_no_dash (t : str) :
  Forall (fun c => dash c = false) t -> first_range t = None.
Proof.
  induction 1 as [|c t Hc Ht IH]; [reflexivity|].
  assert (Hr : range_at (c :: t) = None).
  { cbn [range_at]. destruct (digit c); [|reflexivity].
    pose proof (dropwhile_Forall space (dropwhile_Forall digit_comma_dot Ht)) as Hd.
    destruct (dropwhile space (dropwhile digit_comma_dot t)) as [|d t3];
      [reflexivity|].
    inversion Hd as [|? ? Hdd _]; subst. now rewrite Hdd. }
  cbn [first_range]. rewrite Hr, IH. now destruct (not_newline c).
Qed.

Lemma filter_all (p : char -> bool) (t : str) :
  Forall (fun c => p c = true) t -> filter p t = t.
Proof.
  induction 1 as [|c t Hc Ht IH]; cbn [filter]; [reflexivity|].
  now rewrite Hc, IH.
Qed.

Lemma replace_absent (c : char) (t : str) :
  Forall (fun x => (x =? c)%N = false) t -> replace c [] t = t.
Proof.
  rewrite replace_filter.
  induction 1 as [|x t Hx Ht IH]; cbn [filter]; [reflexivity|].
  now rewrite Hx, IH.
Qed.



End Reparse.



(** ** The JSON extractor *)
Section Extract.
Import Json.

(** Takes apart the matches of a hypothesis on numerals, lists, options and
    pairs, dropping the cases it refutes. *)
Ltac split_matches H :=
  repeat (first
    [ discriminate H
    | match type of H with
      | context [match ?p with xI _ => _ | xO _ => _ | xH => _ end] => destruct p
      | context [match ?n with N0 => _ | Npos _ => _ end] => destruct n
      | context [match ?l with [] => _ | _ :: _ => _ end] => is_var l; destruct l
      end ]).

Lemma parse_members_dict (fuel : nat) :
  forall s acc v r, parse_members fuel s acc = Some (v, r) -> exists d, v = PDict d.
Proof.
  induction fuel as [|fuel IH]; intros s acc v r H; [discriminate|].
  cbn [parse_members] in H.
  split_matches H.
  destruct (scanstring s) as [[k r1]|]; [|discriminate].
  destruct (skip_ws r1) as [|c1 r2]; [discriminate|].
  split_matches H.
  destruct (scan_once fuel (skip_ws r2)) as [[v' r3]|]; [|discriminate].
  destruct (skip_ws r3) as [|c3 r4]; [discriminate|].
  split_matches H;
    first [ exact (IH _ _ _ _ H) | inversion H; eexists; reflexivity ].
Qed.

Lemma scan_once_brace (fuel : nat) (s : str) :
  scan_once (S fuel) (lbrace :: s) =
  match skip_ws s with
  | 125%N :: rest => Some (PDict [], rest)
  | s1 => parse_members fuel s1 []
  end.
Proof. reflexivity. Qed.

Lemma scan_once_brace_dict (fuel : nat) (s r : str) (v : pyval) :
  scan_once (S fuel) (lbrace :: s) = Some (v, r) -> exists d, v = PDict d.
Proof.
  rewrite scan_once_brace. intros H.
  destruct (skip_ws s) as [|c r0]; [exact (parse_members_dict _ _ _ H)|].
  split_matches H;
    first [ exact (parse_members_dict _ _ _ H) | inversion H; eexists; reflexivity ].
Qed.

Lemma loads_brace_unfold (s : str) :
  loads (lbrace :: s) =
  match scan_once (S (2 * List.length (lbrace :: s))) (lbrace :: s) with
  | Some (v, rest) =>
      match skip_ws rest with
      | [] => Some v
      | _ => None
      end
  | None => None
  end.
Proof. reflexivity. Qed.

(** A text that starts with a brace decodes to a dict or not at all. *)
Lemma loads_brace (s : str) (v : pyval) :
  loads (lbrace :: s) = Some v -> exists d, v = PDict d.
Proof.
  rewrite loads_brace_unfold.
  destruct (scan_once _ (lbrace :: s)) as [[v' r']|] eqn:E; [|discriminate].
  destruct (skip_ws r'); [|discriminate].
  intros H. inversion H; subst. exact (scan_once_brace_dict _ _ E).
Qed.

(** *** The brace pattern *)

Lemma rematch_braces (t : str) (m : match_obj) :
  rematch braces_re t = Some m ->
  exists inner rest,
    t = lbrace :: inner ++ rbrace :: rest /\ group0 m = lbrace :: inner ++ [rbrace].
Proof.
  unfold rematch, braces_re. cbn [rmatch].
  destruct t as [|c t']; [discriminate|].
  destruct (is_char lbrace c) eqn:Ec; [|discriminate].
  apply N.eqb_eq in Ec. subst c.
  intros H. apply star_greedy_sound in H.
  destruct H as (inner & s2 & -> & H).
  destruct s2 as [|c2 rest]; [discriminate|].
  destruct (is_char rbrace c2) eqn:Ec2; [|discriminate].
  apply N.eqb_eq in Ec2. subst c2.
  inversion H; subst m. cbn [group0].
  exists inner, rest. split; [reflexivity|].
  change (lbrace :: inner ++ rbrace :: rest)
    with ((lbrace :: inner) ++ [rbrace] ++ rest).
  rewrite app_assoc. rewrite consumed_app. reflexivity.
Qed.

Lemma search_braces (t : str) (m : match_obj) :
  search braces_re t = Some m ->
  exists before inner rest,
    t = before ++ lbrace :: inner ++ rbrace :: rest
    /\ group0 m = lbrace :: inner ++ [rbrace].
Proof.
  induction t as [|c t IH]; cbn [search].
  - destruct (rematch braces_re []) eqn:E; [|discriminate].
    intros H; inversion H; subst.
    destruct (rematch_braces _ E) as (inner & rest & Ht & Hg). discriminate.
  - destruct (rematch braces_re (c :: t)) eqn:E.
    + intros H; inversion H; subst.
      destruct (rematch_braces _ E) as (inner & rest & Ht & Hg).
      exists [], inner, rest. auto.
    + intros H. destruct (IH H) as (before & inner & rest & -> & Hg).
      exists (c :: before), inner, rest. auto.
Qed.

(** *** The repairs keep the opening brace *)

Lemma sub_head (r : re) (repl : str) (c : char) (s : str) :
  rematch r (c :: s) = None ->
  Re.sub r repl (c :: s) = c :: sub_from (List.length s) r repl s.
Proof. intros H. unfold Re.sub. cbn [List.length sub_from]. now rewrite H. Qed.

Lemma repaired_head (s : str) :
  exists s', Re.sub comma_bracket_re [rbracket]
               (Re.sub comma_brace_re [rbrace]
                  (replace squote [dquote] (lbrace :: s))) = lbrace :: s'.
Proof.
  change (replace squote [dquote] (lbrace :: s))
    with (lbrace :: replace squote [dquote] s).
  rewrite sub_head by reflexivity.
  rewrite sub_head by reflexivity.
  eexists. reflexivity.
Qed.

(** C5 (amended).  [extract_json_from_text] is total: it gives [None] for
    [None], for the empty text and for a text in which no opening brace is
    followed by a closing one, and whatever else it gives is a dict.  It
    drops a trailing comma (the object with key a and value 1, written with
    a comma before its closing brace and with noise around it, is read) and
    gives [None] on a text without braces.  On the object whose value is
    written b, backslash, apostrophe, s, the strict reading fails and the
    repair turns the apostrophe into a double quote: the value read is b,
    double quote, s.  When the value is written with two backslashes (b,
    backslash, backslash, apostrophe, s) the strict reading succeeds, no
    repair is made, and the value read is b, backslash, apostrophe, s. *)
Theorem extract_json_from_text_cases :
  extract_json_from_text None = None
  /\ extract_json_from_text (Some []) = None
  /\ (forall t,
        (forall before inner rest, t <> before ++ lbrace :: inner ++ rbrace :: rest) ->
        extract_json_from_text (Some t) = None)
  /\ (forall text v, extract_json_from_text text = Some v -> exists d, v = PDict d)
  /\ extract_json_from_text (Some (litq "noise {`a`:1,} more noise"))
     = Some (PDict [(lit "a", PInt 1)])
  /\ extract_json_from_text (Some (lit "no braces here")) = None
  /\ extract_json_from_text (Some (litq "{`a`: `b\'s`}"))
     = Some (PDict [(lit "a", PStr (lit "b" ++ dquote :: lit "s"))])
  /\ extract_json_from_text (Some (litq "{`a`: `b\\'s`}"))
     = Some (PDict [(lit "a", PStr (lit "b\'s"))]).
Proof.
  split; [reflexivity|]. split; [reflexivity|].
  split.
  { intros t Ht. unfold extract_json_from_text.
    destruct t as [|c t']; [reflexivity|].
    destruct (search braces_re (c :: t')) as [m|] eqn:E; [|reflexivity].
    destruct (search_braces _ E) as (before & inner & rest & Heq & _).
    exfalso. exact (Ht _ _ _ Heq). }
  split.
  { intros text v. unfold extract_json_from_text.
    destruct text as [[|c t']|]; try discriminate.
    destruct (search braces_re (c :: t')) as [m|] eqn:E; [|discriminate].
    destruct (search_braces _ E) as (before & inner & rest & _ & Hg).
    rewrite Hg.
    destruct (loads (lbrace :: inner ++ [rbrace])) as [v0|] eqn:E0.
    - intros H; inversion H; subst. exact (loads_brace _ E0).
    - destruct (repaired_head (inner ++ [rbrace])) as [s' Hs']. rewrite Hs'.
      apply loads_brace. }
  repeat split; vm_compute; reflexivity.
Qed.

End Extract.

(** C5, as stated, fails on its last example: the repair does not keep
    the escaped apostrophe, the value read holds a double quote in its
    place. *)
Lemma extract_json_from_text_apostrophe :
  extract_json_from_text (Some (litq "{`a`: `b\'s`}"))
  = Some (PDict [(lit "a", PStr (lit "b" ++ dquote :: lit "s"))])
  /\ PyStr.eqb (lit "b" ++ dquote :: lit "s") (lit "b's") = false.
Proof. split; vm_compute; reflexivity. Qed.

(** ** The report normaliser and the handler *)
Section HandlerFacts.
Import PyFloat PyNum.

Variable repr_container : pyval -> str.
Variable GOOGLE_API_KEY : option str.
Variable MODEL_NAME : str.
Variable GenerativeModel : str -> result unit.
Variable generate_content : nat -> str -> result response.

Notation parse_number := (parse_number repr_container).
Notation normalize_item := (normalize_item repr_container).
Notation normalize_category := (normalize_category repr_container).
Notation normalize := (normalize repr_container).
Notation results_try :=
  (results_try repr_container GOOGLE_API_KEY MODEL_NAME GenerativeModel generate_content).
Notation results :=
  (results repr_container GOOGLE_API_KEY MODEL_NAME GenerativeModel generate_content).

(** *** The loop over the items *)

Lemma items_loop (l : list pyval) :
  forall its0 c0 its c,
    for_each normalize_item l (its0, c0) = Ret (its, c) ->
    exists lines, line_totals repr_container l = Ret lines /\ c = fold_left add lines c0.
Proof.
  induction l as [|it l IH]; intros its0 c0 its c H.
  - cbn in H. inversion H; subst. exists []. split; reflexivity.
  - cbn [for_each] in H.
    destruct it as [| | | | | |d];
      try (cbn [normalize_item bind] in H; cbn [line_totals]; exact (IH _ _ _ _ H)).
    unfold normalize_item in H. cbn [line_totals]. fold (quantity_of d) in H.
    destruct (parse_number (get d (lit "price") (PInt 0))) as [p|e]; [|discriminate].
    destruct (float_of_int (quantity_of d)) as [q|e]; [|discriminate].
    cbn [bind] in H |- *.
    destruct (IH _ _ _ _ H) as (lines & Hl & Hc).
    exists (mul p q :: lines). rewrite Hl. split; [reflexivity | exact Hc].
Qed.

(** *** The loop over the categories *)

Lemma category_loop_step (d : dict) (kp : str * str) (cats cats' : list category)
    (total total' : float) :
  normalize_category (PDict d) kp (cats, total) = Ret (cats', total') ->
  exists cn, category_step repr_container d kp cn
             /\ cats' = cats ++ [fst cn] /\ total' = add total (snd cn).
Proof.
  destruct kp as [k pretty]. unfold normalize_category. cbn [py_get bind].
  fold (block_of d k). fold (items_of (block_of d k)).
  fold (subtotal_of (block_of d k)).
  destruct (iterate (items_of (block_of d k))) as [l|e] eqn:El; [|discriminate].
  cbn [bind].
  destruct (for_each normalize_item l ([], zero)) as [[its computed]|e] eqn:Ef;
    [|discriminate].
  cbn [bind]. intros H. inversion H; subst.
  eexists (_, _). split; [|split; reflexivity].
  exists l, its, computed. cbn [fst snd]. auto.
Qed.

Lemma categories_loop (d : dict) (kps : list (str * str)) :
  forall cats total cats' total',
    for_each (normalize_category (PDict d)) kps (cats, total) = Ret (cats', total') ->
    exists outs, Forall2 (category_step repr_container d) kps outs
                 /\ cats' = cats ++ map fst outs
                 /\ total' = fold_left add (map snd outs) total.
Proof.
  induction kps as [|kp kps IH]; intros cats total cats' total' H.
  - cbn in H. inversion H; subst. exists []. repeat split.
    + constructor.
    + now rewrite app_nil_r.
  - cbn [for_each] in H.
    destruct (normalize_category (PDict d) kp (cats, total)) as [[cats1 total1]|e] eqn:E;
      [|discriminate].
    cbn [bind] in H.
    destruct (category_loop_step _ _ _ _ E) as (cn & Hstep & -> & ->).
    destruct (IH _ _ _ _ H) as (outs & Hall & -> & ->).
    exists (cn :: outs). repeat split.
    + now constructor.
    + cbn [map]. now rewrite <- app_assoc.
Qed.

(** [subtotal_num] in the words of the specification. *)
Lemma resolve_subtotal_spec (block : pyval) (computed_sub : float) :
  resolve_subtotal (subtotal_of block) computed_sub
  = match upstream_subtotal block with
    | Some x => x
    | None => round2 computed_sub
    end.
Proof.
  unfold resolve_subtotal, upstream_subtotal.
  destruct (try_float (subtotal_of block)) as [x|]; [|reflexivity].
  destruct (leb x zero); reflexivity.
Qed.

Lemma category_step_subtotal (d : dict) (kp : str * str) (cn : category * float) :
  category_step repr_container d kp cn ->
  category_subtotal_num repr_container d (fst kp) = Ret (snd cn)
  /\ key (fst cn) = fst kp /\ title (fst cn) = snd kp
  /\ subtotal (fst cn) = PFloat (round2 (snd cn)).
Proof.
  intros (l & its & computed & Hl & Hf & Hn & Hc).
  destruct (items_loop _ _ _ Hf) as (lines & Hlines & Hsum).
  unfold category_subtotal_num. rewrite Hl. cbn [bind]. rewrite Hlines. cbn [bind].
  rewrite Hc. cbn [key title subtotal]. rewrite Hn, Hsum, resolve_subtotal_spec. auto.
Qed.

Lemma normalize_dict (data : pyval) (r : list category * float) :
  normalize data = Ret r -> exists d, data = PDict d.
Proof.
  destruct data; try discriminate. intros _. eexists. reflexivity.
Qed.

Lemma normalize_unfold (d : dict) (cats : list category) (total : float) :
  normalize (PDict d) = Ret (cats, total) ->
  exists outs,
    Forall2 (category_step repr_container d) CATEGORY_KEYS outs
    /\ cats = map fst outs
    /\ ((positive_number (get d (lit "grand_total") PNone) = true /\
         exists x, parse_number (get d (lit "grand_total") PNone) = Ret x
                   /\ total = round2 x)
        \/ (positive_number (get d (lit "grand_total") PNone) = false /\
            total = round2 (fsum (map snd outs)))).
Proof.
  unfold normalize.
  destruct (for_each (normalize_category (PDict d)) CATEGORY_KEYS ([], zero))
    as [[cats1 total1]|e] eqn:E; [|discriminate].
  cbn [bind py_get].
  destruct (categories_loop _ _ _ _ E) as (outs & Hall & -> & ->).
  cbn [app]. exists outs. split; [exact Hall|]. revert H.
  destruct (positive_number (get d (lit "grand_total") PNone)) eqn:Ep.
  - destruct (parse_number (get d (lit "grand_total") PNone)) as [x|e] eqn:Ex;
      cbn [bind]; intros H; [|discriminate].
    inversion H; subst. split; [reflexivity|].
    left. split; [reflexivity|]. exists x. auto.
  - intros H. inversion H; subst. split; [reflexivity|].
    right. split; reflexivity.
Qed.

(** The converse: the loops return when the line totals do. *)
Lemma line_totals_loop (l : list pyval) :
  forall lines its0 c0,
    line_totals repr_container l = Ret lines ->
    exists its,
      for_each normalize_item l (its0, c0) = Ret (its, fold_left add lines c0).
Proof.
  induction l as [|it l IH]; intros lines its0 c0 H.
  - cbn in H. inversion H; subst. exists its0. reflexivity.
  - cbn [for_each].
    destruct it as [| | | | | |d];
      try (cbn [line_totals] in H; cbn [normalize_item bind]; exact (IH _ _ _ H)).
    cbn [line_totals] in H. unfold normalize_item. fold (quantity_of d).
    destruct (parse_number (get d (lit "price") (PInt 0))) as [p|e]; [|discriminate].
    destruct (float_of_int (quantity_of d)) as [q|e]; [|discriminate].
    cbn [bind] in H |- *.
    destruct (line_totals repr_container l) as [rest|e] eqn:El; [|discriminate].
    cbn [bind] in H. inversion H; subst.
    cbn [fold_left]. apply IH. reflexivity.
Qed.

Lemma category_returns (d : dict) (kp : str * str) (n : float)
    (cats : list category) (total : float) :
  category_subtotal_num repr_container d (fst kp) = Ret n ->
  exists c,
    normalize_category (PDict d) kp (cats, total) = Ret (cats ++ [c], add total n).
Proof.
  destruct kp as [k pretty]. cbn [fst].
  unfold category_subtotal_num, normalize_category. cbn [py_get bind].
  fold (block_of d k). fold (items_of (block_of d k)).
  fold (subtotal_of (block_of d k)).
  destruct (iterate (items_of (block_of d k))) as [l|e]; [|discriminate].
  cbn [bind].
  destruct (line_totals repr_container l) as [lines|e] eqn:El; [|discriminate].
  cbn [bind]. intros H. inversion H; subst.
  destruct (@line_totals_loop l lines [] zero El) as (its & Hits).
  rewrite Hits. cbn [bind]. rewrite resolve_subtotal_spec. eexists. reflexivity.
Qed.

Lemma categories_return (d : dict) (kps : list (str * str)) :
  Forall (fun kp => returns (category_subtotal_num repr_container d (fst kp)) = true)
         kps ->
  forall cats total,
    returns (for_each (normalize_category (PDict d)) kps (cats, total)) = true.
Proof.
  induction 1 as [|kp kps Hk _ IH]; intros cats total; [reflexivity|].
  cbn [for_each].
  destruct (category_subtotal_num repr_container d (fst kp)) as [n|e] eqn:En;
    [|discriminate].
  destruct (@category_returns d kp n cats total En) as (c & Hc).
  rewrite Hc. cbn [bind]. apply IH.
Qed.

(** A block that is absent or not a mapping gives the empty category. *)
Lemma category_step_no_block (d : dict) (kp : str * str) (cn : category * float) :
  category_step repr_container d kp cn ->
  no_block d (fst kp) = true ->
  fst cn = empty_category (PFloat zero) kp /\ snd cn = zero.
Proof.
  intros (l & its & computed & Hl & Hf & Hn & Hc) Hb.
  assert (Hi : items_of (block_of d (fst kp)) = PList []
               /\ subtotal_of (block_of d (fst kp)) = PInt 0).
  { unfold block_of, get, no_block in *.
    destruct (dict_get d (fst kp)) as [v|]; [|split; reflexivity].
    destruct v; try discriminate; split; reflexivity. }
  destruct Hi as [Hi Hs]. rewrite Hi in Hl. cbn in Hl. inversion Hl; subst l.
  cbn in Hf. inversion Hf; subst its computed.
  rewrite Hs in Hn. change (resolve_subtotal (PInt 0) zero) with zero in Hn.
  rewrite Hc, Hn. split; reflexivity.
Qed.

Lemma steps_spec (d : dict) (kps : list (str * str)) (outs : list (category * float)) :
  Forall2 (category_step repr_container d) kps outs ->
  Forall2 (fun kp n => category_subtotal_num repr_container d (fst kp) = Ret n)
          kps (map snd outs)
  /\ map subtotal (map fst outs) = map (fun n => PFloat (round2 n)) (map snd outs)
  /\ Forall2 (fun kp c =>
                key c = fst kp /\ title c = snd kp
                /\ (no_block d (fst kp) = true ->
                    items c = PList [] /\ subtotal c = PFloat zero))
             kps (map fst outs).
Proof.
  induction 1 as [|kp cn kps outs Hstep _ IH].
  - repeat split; constructor.
  - destruct IH as (IH1 & IH2 & IH3).
    destruct (category_step_subtotal Hstep) as (Hn & Hk & Ht & Hs).
    cbn [map]. repeat split.
    + constructor; assumption.
    + rewrite Hs, IH2. reflexivity.
    + constructor; [|assumption]. repeat split; try assumption;
        destruct (category_step_no_block Hstep H) as [-> _]; reflexivity.
Qed.

(** On an int or a float, [parse_number] is [float()]. *)
Lemma parse_number_of_number (v : pyval) (x : float) :
  positive_number v = true -> parse_number v = Ret x -> try_float v = Some x.
Proof.
  destruct v; try discriminate; cbn [parse_number try_float]; unfold float_of_int.
  - destruct (of_int (Z.b2z b)); [|discriminate]. intros _ H. now inversion H.
  - destruct (of_int z); [|discriminate]. intros _ H. now inversion H.
  - intros _ H. now inversion H.
Qed.

Lemma Forall2_left {A B : Type} (P : A -> B -> Prop) (Q : A -> Prop)
    (l : list A) (l' : list B) :
  (forall a b, P a b -> Q a) -> Forall2 P l l' -> Forall Q l.
Proof. intros HPQ. induction 1; constructor; eauto. Qed.

(** The normaliser returns exactly when every category has a subtotal and
    the upstream total, if it is used, can be read. *)
Lemma normalize_returns (d : dict) :
  returns (normalize (PDict d)) = true
  <-> (Forall (fun kp =>
                 returns (category_subtotal_num repr_container d (fst kp)) = true)
              CATEGORY_KEYS
       /\ (positive_number (get d (lit "grand_total") PNone) = true ->
           returns (parse_number (get d (lit "grand_total") PNone)) = true)).
Proof.
  split.
  - destruct (normalize (PDict d)) as [[cats total]|e] eqn:E; [|discriminate].
    intros _. destruct (@normalize_unfold d cats total E) as (outs & Hall & _ & Ht). split.
    + refine (Forall2_left _ _ Hall).
      intros kp cn Hstep. destruct (category_step_subtotal Hstep) as (Hn & _).
      now rewrite Hn.
    + intros Hp. destruct Ht as [(_ & x & Hx & _)|(Hp' & _)].
      * now rewrite Hx.
      * rewrite Hp in Hp'. discriminate.
  - intros [Hcats Hgt]. unfold normalize.
    pose proof (@categories_return d CATEGORY_KEYS Hcats [] zero) as Hr.
    destruct (for_each (normalize_category (PDict d)) CATEGORY_KEYS ([], zero))
      as [[cats total]|e]; [|discriminate].
    cbn [bind py_get].
    destruct (positive_number (get d (lit "grand_total") PNone)); [|reflexivity].
    specialize (Hgt eq_refl).
    destruct (parse_number (get d (lit "grand_total") PNone)); [reflexivity|discriminate].
Qed.

(** What the [try] block returns, when it returns. *)
Lemma results_try_ret (form : list (str * str)) (pg : page) :
  results_try form = Ret pg ->
  exists data r,
    normalize data = Ret r
    /\ categories pg = fst r /\ grand_total pg = snd r
    /\ raw_model_data pg = data /\ error pg = None.
Proof.
  unfold results_try. cbv zeta.
  destruct GOOGLE_API_KEY as [[|c k]|]; cbn [bind]; try discriminate.
  destruct (GenerativeModel MODEL_NAME); cbn [bind]; [|discriminate].
  destruct (generate_content 0 _) as [resp|]; cbn [bind]; [|discriminate].
  match goal with
  | |- bind ?c _ = _ -> _ => destruct c as [data|]; cbn [bind]; [|discriminate]
  end.
  match goal with
  | |- bind (normalize ?v) _ = _ -> _ =>
      destruct (normalize v) as [r|] eqn:E; cbn [bind]; [|discriminate]
  end.
  intros H. inversion H; subst. cbn. eauto 10.
Qed.

Lemma normalize_keys (data : pyval) (cats : list category) (total : float) :
  normalize data = Ret (cats, total) ->
  map key cats = map fst CATEGORY_KEYS /\ map title cats = map snd CATEGORY_KEYS.
Proof.
  intros H. destruct (normalize_dict _ H) as (d & ->).
  destruct (@normalize_unfold d cats total H) as (outs & Hall & -> & _).
  destruct (steps_spec Hall) as (_ & _ & Hk). clear Hall H.
  induction Hk as [|kp c kps cs (Hkey & Htitle & _) _ [IH1 IH2]]; [split; reflexivity|].
  cbn [map]. rewrite Hkey, Htitle, IH1, IH2. split; reflexivity.
Qed.

Lemma normalize_empty_fallback (product currency_code : str) :
  normalize (empty_fallback product currency_code) = Ret (empty_categories, zero).
Proof. vm_compute. reflexivity. Qed.

Lemma categories_fallback_error (product currency_code : str) (e : exn) :
  categories_fallback (error_fallback product currency_code e)
  = error_categories (message e).
Proof. vm_compute. reflexivity. Qed.

(** Without a key in the environment the [try] block raises at once. *)
Lemma results_try_no_key (form : list (str * str)) :
  GOOGLE_API_KEY = None \/ GOOGLE_API_KEY = Some [] ->
  results_try form
  = Raise (Exn RuntimeError
             (lit "GOOGLE_API_KEY is not configured in the environment.")).
Proof. unfold results_try. intros [-> | ->]; reflexivity. Qed.

(** C2 (amended).  When the normaliser returns, each category has a number
    [n]: the subtotal its block provides when [float()] reads it and it is
    not [<= 0], and otherwise the sum over its items of price times
    quantity, rounded to two decimals.  The subtotal in the report is
    [round(n, 2)].  The grand total is [round(x, 2)] for the upstream
    [grand_total] [x] when that is an int or a float above 0, and otherwise
    [round(_, 2)] of the sum of the five [n], taken before they are
    rounded. *)
Theorem normalize_totals (d : dict) (cats : list category) (total : float) :
  normalize (PDict d) = Ret (cats, total) ->
  exists nums,
    Forall2 (fun kp n => category_subtotal_num repr_container d (fst kp) = Ret n)
            CATEGORY_KEYS nums
    /\ map subtotal cats = map (fun n => PFloat (round2 n)) nums
    /\ (positive_number (get d (lit "grand_total") PNone) = true ->
        exists x, try_float (get d (lit "grand_total") PNone) = Some x
                  /\ total = round2 x)
    /\ (positive_number (get d (lit "grand_total") PNone) = false ->
        total = round2 (fsum nums)).
Proof.
  intros H. destruct (@normalize_unfold d cats total H) as (outs & Hall & -> & Ht).
  destruct (steps_spec Hall) as (Hn & Hs & _).
  exists (map snd outs). repeat split; try assumption.
  - intros Hp. destruct Ht as [(_ & x & Hx & ->)|(Hp' & _)].
    + exists x. split; [|reflexivity]. now apply parse_number_of_number.
    + rewrite Hp in Hp'. discriminate.
  - intros Hp. destruct Ht as [(Hp' & _)|(_ & ->)]; [|reflexivity].
    rewrite Hp in Hp'. discriminate.
Qed.

(** C3 (a slip of the code).  The items of a block are iterated as they
    are.  When the items of one of the five blocks are null, a number or a
    truth value, [for it in items] raises and the normaliser fails; the
    claim has an empty items list and the subtotal 0 there, as the code
    itself has for a block or an item that is not a mapping. *)
Theorem normalize_items_unguarded (d : dict) :
  existsb (fun kp => negb (returns (iterate (items_of (block_of d (fst kp))))))
          CATEGORY_KEYS = true ->
  returns (normalize (PDict d)) = false.
Proof.
  intros H. destruct (returns (normalize (PDict d))) eqn:E; [|reflexivity].
  exfalso. apply normalize_returns in E. destruct E as [Hall _].
  apply existsb_exists in H. destruct H as (kp & Hin & Hkp).
  rewrite Forall_forall in Hall. specialize (Hall kp Hin).
  unfold category_subtotal_num in Hall.
  destruct (iterate (items_of (block_of d (fst kp)))); discriminate.
Qed.

(** What cannot be iterated: null, a truth value, an int, a float. *)
Lemma iterate_raises (v : pyval) :
  returns (iterate v) = false <->
  match v with PNone | PBool _ | PInt _ | PFloat _ => True | _ => False end.
Proof. destruct v; cbn; intuition discriminate. Qed.

(** X17.  When the normaliser returns, the report holds exactly five
    categories, in the order of [CATEGORY_KEYS] and with its titles, and a
    category whose block is absent or not a mapping has no items and the
    subtotal 0.0.  Whatever the form and the model client, the page handed
    to the template holds the five categories in that order. *)
Theorem results_five_categories (d : dict) :
  (forall cats total,
      normalize (PDict d) = Ret (cats, total) ->
      List.length cats = 5%nat
      /\ Forall2 (fun kp c =>
                    key c = fst kp /\ title c = snd kp
                    /\ (no_block d (fst kp) = true ->
                        items c = PList [] /\ subtotal c = PFloat zero))
                 CATEGORY_KEYS cats)
  /\ (forall form, map key (categories (results form)) = map fst CATEGORY_KEYS).
Proof.
  split.
  - intros cats total H.
    destruct (@normalize_unfold d cats total H) as (outs & Hall & -> & _).
    destruct (steps_spec Hall) as (_ & _ & Hk). split; [|exact Hk].
    rewrite <- (Forall2_length Hk). reflexivity.
  - intros form. unfold results.
    destruct (results_try form) as [pg|e] eqn:E.
    + destruct (results_try_ret _ E) as (data & [cats total] & Hn & Hc & _).
      rewrite Hc. exact (proj1 (normalize_keys _ Hn)).
    + reflexivity.
Qed.

(** C4.  When anything in the [try] block raises, the handler still hands a
    page to the template: the first category holds exactly one item, named
    Error, whose specs are the message of the exception, the other four
    categories hold no items, every subtotal is 0 and so is the grand
    total, and the message is passed as [error]. *)
Theorem results_degraded (form : list (str * str)) (e : exn) :
  results_try form = Raise e ->
  results form = results_except form e
  /\ categories (results form) = error_categories (message e)
  /\ Forall (fun c => subtotal c = PInt 0) (categories (results form))
  /\ grand_total (results form) = zero
  /\ error (results form) = Some (message e).
Proof.
  intros H. unfold results. rewrite H. cbn [results_except categories grand_total error].
  rewrite categories_fallback_error. repeat split.
  repeat constructor.
Qed.

(** C9.  When the key is set, the client is built, both calls return, and
    no JSON object is recovered from the first response nor from the
    response to the corrective request, the handler renders the empty
    report: the five categories, each without items and with the subtotal
    0.0, the grand total 0.0, and no error. *)
Theorem results_empty_skeleton (form : list (str * str)) (c : char) (k : str)
    (resp resp2 : response) :
  let currency_code := detect_currency_code (form_place form) in
  GOOGLE_API_KEY = Some (c :: k) ->
  GenerativeModel MODEL_NAME = Ret tt ->
  generate_content 0
    (build_structured_prompt (form_product form) (form_place form) currency_code)
  = Ret resp ->
  falsy (extract_json_from_text (response_to_text resp)) = true ->
  generate_content 1 (followup_prompt (response_to_text resp) currency_code)
  = Ret resp2 ->
  falsy (extract_json_from_text (response_to_text resp2)) = true ->
  results form
  = {| product_name := form_product form; place := form_place form;
       currency := currency_code;
       categories := empty_categories; grand_total := zero;
       raw_model_data := empty_fallback (form_product form) currency_code;
       error := None |}.
Proof.
  intros currency_code Hkey Hmodel Hresp Hf Hresp2 Hf2. subst currency_code.
  unfold results, results_try. cbv zeta.
  rewrite Hkey, Hmodel. cbn [bind]. rewrite Hresp. cbn [bind].
  rewrite Hf, Hresp2. cbn [bind].
  assert (Hd : match extract_json_from_text (response_to_text resp2) with
               | Some v =>
                   if truthy v then v
                   else empty_fallback (form_product form)
                          (detect_currency_code (form_place form))
               | None =>
                   empty_fallback (form_product form)
                     (detect_currency_code (form_place form))
               end
               = empty_fallback (form_product form)
                   (detect_currency_code (form_place form))).
  { unfold falsy in Hf2.
    destruct (extract_json_from_text (response_to_text resp2)) as [v|]; [|reflexivity].
    destruct (truthy v); [discriminate|reflexivity]. }
  rewrite Hd, normalize_empty_fallback. reflexivity.
Qed.

End HandlerFacts.

(** C2, as stated, fails on subtotals and totals with more than two
    decimals.  With five blocks [{"subtotal": 0.004}] every subtotal of the
    report is 0.0, not the 0.004 provided, and the grand total is 0.02,
    not the rounded sum 0.0 of those subtotals; and an upstream
    [grand_total] of 1234.567 is reported as 1234.57. *)
Lemma normalize_totals_rounded :
  normalize repr_unused small_subtotals
  = Ret (empty_categories, PyFloat.of_decimal false 2 (-2))
  /\ PyFloat.round2 (fsum (repeat PyFloat.zero 5)) = PyFloat.zero
  /\ PyFloat.eqb (PyFloat.of_decimal false 2 (-2)) PyFloat.zero = false
  /\ normalize repr_unused long_total
     = Ret (empty_categories, PyFloat.of_decimal false 123457 (-2))
  /\ PyFloat.eqb (PyFloat.of_decimal false 123457 (-2))
                 (PyFloat.of_decimal false 1234567 (-3)) = false.
Proof. repeat split; vm_compute; reflexivity. Qed.

(** The totals of a response with one item, two switches at "1,200.50", and
    no subtotal: 2401.0 for the category and for the report. *)
Lemma normalize_totals_witness :
  exists cats nums,
    normalize repr_unused (PDict one_item) = Ret (cats, PyFloat.of_Z 2401)
    /\ Forall2 (fun kp n => category_subtotal_num repr_unused one_item (fst kp) = Ret n)
               CATEGORY_KEYS nums
    /\ map subtotal cats = map (fun n => PFloat (PyFloat.round2 n)) nums
    /\ PyFloat.of_Z 2401 = PyFloat.round2 (fsum nums).
Proof.
  destruct (normalize repr_unused (PDict one_item)) as [[cats total]|e] eqn:E;
    [|vm_compute in E; discriminate].
  destruct (@normalize_totals repr_unused one_item cats total E)
    as (nums & Hn & Hs & _ & Ht).
  assert (Et : total = PyFloat.of_Z 2401) by (vm_compute in E; now inversion E).
  exists cats, nums. rewrite <- Et. repeat split; try assumption.
  apply Ht. vm_compute. reflexivity.
Defined.

(** C3: on [{"vision_2030": {"items": null}}] the normaliser raises a
    TypeError. *)
Lemma normalize_null_items :
  normalize repr_unused null_items
  = Raise (Exn TypeError (lit "'NoneType' object is not iterable")).
Proof. vm_compute. reflexivity. Qed.

(** The same with a number for the items. *)
Lemma normalize_items_unguarded_witness :
  returns (normalize repr_unused number_items) = false.
Proof.
  apply (normalize_items_unguarded repr_unused
           [ (lit "vision_2030", PDict [ (lit "items", PInt 5) ]) ]).
  vm_compute. reflexivity.
Defined.

(** Where the code has a guard the report is the empty one: a block that
    is null, an item that is null, a quantity and a subtotal that are not
    numbers. *)
Lemma normalize_guards :
  normalize repr_unused (PDict [ (lit "vision_2030", PNone) ])
  = Ret (empty_categories, PyFloat.zero)
  /\ normalize repr_unused
       (PDict [ (lit "vision_2030", PDict [ (lit "items", PList [ PNone ]) ]) ])
     = Ret (empty_categories, PyFloat.zero)
  /\ returns (normalize repr_unused
                (PDict [ (lit "vision_2030",
                          PDict [ (lit "items",
                                    PList [ PDict [ (lit "quantity", PNone) ] ]);
                                  (lit "subtotal", PNone) ]) ])) = true.
Proof. repeat split; vm_compute; reflexivity. Qed.

(** The five categories of a response whose first block is the number 3. *)
Lemma results_five_categories_witness :
  exists cats total,
    normalize repr_unused (PDict one_item) = Ret (cats, total)
    /\ List.length cats = 5%nat
    /\ map key cats = map fst CATEGORY_KEYS
    /\ nth_error cats 0 = option_map (empty_category (PFloat PyFloat.zero))
                            (nth_error CATEGORY_KEYS 0).
Proof.
  destruct (normalize repr_unused (PDict one_item)) as [[cats total]|e] eqn:E;
    [|vm_compute in E; discriminate].
  destruct (proj1 (@results_five_categories repr_unused None []
                     (fun _ => Ret tt) (fun _ _ => Ret prose_response)
                     one_item) cats total E) as [Hlen Hall].
  exists cats, total. repeat split; try assumption;
    vm_compute in E; inversion E; reflexivity.
Defined.

(** The degraded report when the key is not set. *)
Lemma results_degraded_witness :
  categories (results repr_unused None (lit "gemini-pro") (fun _ => Ret tt)
                (fun _ _ => Ret prose_response) example_form)
  = error_categories (lit "GOOGLE_API_KEY is not configured in the environment.")
  /\ grand_total (results repr_unused None (lit "gemini-pro") (fun _ => Ret tt)
                    (fun _ _ => Ret prose_response) example_form)
     = PyFloat.zero
  /\ error (results repr_unused None (lit "gemini-pro") (fun _ => Ret tt)
              (fun _ _ => Ret prose_response) example_form)
     = Some (lit "GOOGLE_API_KEY is not configured in the environment.").
Proof.
  destruct (@results_degraded repr_unused None (lit "gemini-pro") (fun _ => Ret tt)
              (fun _ _ => Ret prose_response) example_form
              (Exn RuntimeError
                 (lit "GOOGLE_API_KEY is not configured in the environment."))
              eq_refl) as (_ & Hc & _ & Hg & He).
  repeat split; assumption.
Defined.

(** The empty report when the model answers twice in prose. *)
Lemma results_empty_skeleton_witness :
  results repr_unused (Some (lit "key")) (lit "gemini-pro") (fun _ => Ret tt)
    (fun _ _ => Ret prose_response) example_form
  = {| product_name := lit "Router"; place := lit "Pune, India";
       currency := lit "INR";
       categories := empty_categories; grand_total := PyFloat.zero;
       raw_model_data := empty_fallback (lit "Router") (lit "INR");
       error := None |}.
Proof.
  apply (@results_empty_skeleton repr_unused (Some (lit "key")) (lit "gemini-pro")
           (fun _ => Ret tt) (fun _ _ => Ret prose_response) example_form
           107%N (lit "ey") prose_response prose_response);
    vm_compute; reflexivity.
Defined.

(** ** More on the currency detector *)
Section CurrencyMore.

Lemma contains_trans (k' k p : str) :
  contains k' k = true -> contains k p = true -> contains k' p = true.
Proof.
  rewrite !contains_app. intros (a & b & ->) (pre & post & ->).
  exists (pre ++ a), (b ++ post). now rewrite <- !app_assoc.
Qed.

Lemma detect_loop_app (l1 l2 : list (str * str)) (p : str) :
  detect_loop (l1 ++ l2) p =
  if existsb (fun kv => contains (fst kv) p) l1
  then detect_loop l1 p else detect_loop l2 p.
Proof.
  induction l1 as [|[k v] l1 IH]; [reflexivity|].
  cbn [app detect_loop existsb fst]. destruct (contains k p); [reflexivity|exact IH].
Qed.

(** An entry whose key holds an earlier key never decides. *)
Lemma detect_loop_shadowed (l1 l2 : list (str * str)) (k v k' p : str) :
  existsb (PyStr.eqb k') (map fst l1) = true ->
  contains k' k = true ->
  detect_loop (l1 ++ (k, v) :: l2) p = detect_loop (l1 ++ l2) p.
Proof.
  intros Hin Hsub. rewrite !detect_loop_app.
  destruct (existsb (fun kv => contains (fst kv) p) l1) eqn:E; [reflexivity|].
  cbn [detect_loop]. destruct (contains k p) eqn:Ek; [|reflexivity].
  exfalso. apply existsb_exists in Hin. destruct Hin as (x & Hx & Hxe).
  apply eqb_eq in Hxe. subst x. apply in_map_iff in Hx.
  destruct Hx as ([k0 v0] & Hk0 & Hin). cbn [fst] in Hk0. subst k0.
  assert (Ht : existsb (fun kv => contains (fst kv) p) l1 = true).
  { apply existsb_exists. exists (k', v0). split; [exact Hin|].
    exact (contains_trans k' k p Hsub Ek). }
  rewrite Ht in E. discriminate.
Qed.

Lemma detect_loop_live (p : str) :
  detect_loop CURRENCY_MAP p = detect_loop live_entries p.
Proof.
  change CURRENCY_MAP
    with (firstn 14 CURRENCY_MAP ++ (lit "united kingdom", lit "GBP")
            :: skipn 15 CURRENCY_MAP).
  rewrite (detect_loop_shadowed _ _ _ _ (lit "kingdom") p)
    by (vm_compute; reflexivity).
  change (firstn 14 CURRENCY_MAP ++ skipn 15 CURRENCY_MAP)
    with (firstn 12 CURRENCY_MAP ++ (lit "australia", lit "AUD")
            :: skipn 13 (firstn 14 CURRENCY_MAP ++ skipn 15 CURRENCY_MAP)).
  rewrite (detect_loop_shadowed _ _ _ _ (lit "us") p)
    by (vm_compute; reflexivity).
  change (firstn 12 CURRENCY_MAP
            ++ skipn 13 (firstn 14 CURRENCY_MAP ++ skipn 15 CURRENCY_MAP))
    with (firstn 3 CURRENCY_MAP ++ (lit "saudi arabia", lit "SAR")
            :: skipn 4 (firstn 12 CURRENCY_MAP
                 ++ skipn 13 (firstn 14 CURRENCY_MAP ++ skipn 15 CURRENCY_MAP))).
  rewrite (detect_loop_shadowed _ _ _ _ (lit "saudi") p)
    by (vm_compute; reflexivity).
  reflexivity.
Qed.

(** What the loop answers is the fallback or the code of a key that
    occurs. *)
Lemma detect_loop_answer (items : list (str * str)) (p : str) :
  (detect_loop items p = USD
   /\ existsb (fun kv => contains (fst kv) p) items = false)
  \/ exists k, In (k, detect_loop items p) items /\ contains k p = true.
Proof.
  induction items as [|[k v] items IH]; [left; split; reflexivity|].
  cbn [detect_loop existsb fst]. destruct (contains k p) eqn:E.
  - right. exists k. split; [left; reflexivity | exact E].
  - destruct IH as [IH|(k0 & Hin & Hk0)]; [left; exact IH|].
    right. exists k0. split; [right; exact Hin | exact Hk0].
Qed.

Lemma detect_currency_code_loop (place : str) :
  detect_currency_code place = detect_loop live_entries (lower (strip place)).
Proof.
  destruct place as [|c place]; [reflexivity|].
  unfold detect_currency_code. apply detect_loop_live.
Qed.

(** X1.  Three entries of [CURRENCY_MAP] never decide: "saudi arabia",
    "united kingdom" and "australia" each hold an earlier key ("saudi",
    "kingdom", "us"), which is found first.  Without them the detector is
    the same function. *)
Theorem detect_currency_code_dead_entries (place : str) :
  detect_currency_code place =
  match place with
  | [] => lit "USD"
  | _ => detect_loop live_entries (lower (strip place))
  end.
Proof.
  destruct place as [|c place]; [reflexivity|].
  unfold detect_currency_code. apply detect_loop_live.
Qed.

(** X2.  The detector answers one of thirteen codes, and never "AUD",
    the code of the entry "australia". *)
Theorem detect_currency_code_codes (place : str) :
  In (detect_currency_code place) answered_codes
  /\ detect_currency_code place <> lit "AUD".
Proof.
  assert (H : In (detect_currency_code place) answered_codes).
  { rewrite detect_currency_code_loop.
    destruct (detect_loop_answer live_entries (lower (strip place)))
      as [[-> _]|(k & Hin & _)].
    - vm_compute. auto 10.
    - revert Hin. generalize (detect_loop live_entries (lower (strip place))).
      intros code Hin.
      assert (E : forallb (fun kv => existsb (PyStr.eqb (snd kv)) answered_codes)
                    live_entries = true) by (vm_compute; reflexivity).
      rewrite forallb_forall in E. specialize (E _ Hin). cbn [snd] in E.
      apply existsb_exists in E. destruct E as (x & Hx & Hxe).
      apply eqb_eq in Hxe. now subst x. }
  split; [exact H|].
  intros E. rewrite E in H. vm_compute in H.
  repeat (destruct H as [H|H]; [discriminate|]). exact H.
Qed.

(** X3.  A place that holds "kingdom", as "United Kingdom" does, gets "SAR",
    or "INR" when "ind" occurs in it as well; the entry for "united kingdom"
    plays no part. *)
Theorem detect_currency_code_kingdom (place : str) :
  contains (lit "kingdom") (lower (strip place)) = true ->
  detect_currency_code place
  = if contains (lit "ind") (lower (strip place)) then lit "INR" else lit "SAR".
Proof.
  intros H. destruct place as [|c place]; [vm_compute in H; discriminate|].
  unfold detect_currency_code. generalize dependent (lower (strip (c :: place))).
  intros p H. cbn [detect_loop CURRENCY_MAP].
  destruct (contains (lit "india") p) eqn:E1.
  - rewrite (contains_trans (lit "ind") (lit "india") p); auto.
  - destruct (contains (lit "ind") p); [reflexivity|].
    destruct (contains (lit "saudi") p); [reflexivity|].
    destruct (contains (lit "saudi arabia") p); [reflexivity|].
    now rewrite H.
Qed.

End CurrencyMore.

(** "United Kingdom" gets "SAR". *)
Lemma detect_currency_code_kingdom_witness :
  detect_currency_code (lit "United Kingdom") = lit "SAR".
Proof.
  apply (detect_currency_code_kingdom (lit "United Kingdom")).
  vm_compute. reflexivity.
Defined.

(** ** More on the number parser *)
Section NumberMore.
Import PyFloat PyNum.

Variable repr_container : pyval -> str.
Notation parse_number := (parse_number repr_container).

Lemma digit_or_dot_class (c : char) :
  digit_or_dot c = true ->
  digit_comma_dot c = true /\ (c =? comma)%N = false.
Proof.
  unfold digit_or_dot, digit_comma_dot. intros H. split.
  - apply orb_true_iff in H. destruct H as [H|H]; rewrite H;
      [reflexivity | apply orb_true_r].
  - destruct (c =? comma)%N eqn:E; [|reflexivity].
    apply N.eqb_eq in E. subst c. vm_compute in H. discriminate.
Qed.

Lemma lstrip_rev_unspaced (b t : str) :
  Forall (fun c => isspace c = false) b -> b <> [] ->
  lstrip (rev b ++ t) = rev b ++ t.
Proof.
  intros Hb Hne. destruct (rev b) as [|c r] eqn:E.
  - exfalso. apply Hne. rewrite <- (rev_involutive b), E. reflexivity.
  - cbn [app]. apply lstrip_head.
    rewrite Forall_forall in Hb. apply Hb, in_rev. rewrite E. left. reflexivity.
Qed.

(** A text that neither starts nor ends with white space has nothing to
    strip. *)
Lemma strip_edges (a b : str) :
  match a with c :: _ => isspace c = false | [] => False end ->
  Forall (fun c => isspace c = false) b -> b <> [] ->
  strip (a ++ b) = a ++ b.
Proof.
  intros Ha Hb Hne. unfold strip, rstrip.
  rewrite (lstrip_head (a ++ b)) by (destruct a; [destruct Ha | exact Ha]).
  rewrite rev_app_distr, (lstrip_rev_unspaced _ Hb Hne), <- rev_app_distr.
  apply rev_involutive.
Qed.

Lemma strip_unspaced (t : str) :
  Forall (fun c => isspace c = false) t -> strip t = t.
Proof.
  intros H. destruct t as [|c t]; [reflexivity|].
  change (c :: t) with ([] ++ c :: t) at 1.
  unfold strip, rstrip. cbn [app].
  rewrite (lstrip_head (c :: t)) by (inversion H; assumption).
  rewrite <- (app_nil_r (rev (c :: t))).
  rewrite (lstrip_rev_unspaced _ H) by discriminate.
  rewrite app_nil_r. apply rev_involutive.
Qed.

(** On a text of digits and dots, of any script, [parse_number] is
    [float()] and [round(_, 2)], and 0.0 when [float()] fails. *)
Lemma parse_number_cleaned (t : str) :
  Forall (fun c => digit_or_dot c = true) t ->
  parse_number (PStr t) =
  Ret (match float_of_str t with
       | Some num => round2 num
       | None => zero
       end).
Proof.
  intros H.
  assert (Hd : Forall (fun c => digit_comma_dot c = true) t).
  { revert H. apply Forall_impl. intros c Hc. apply digit_or_dot_class, Hc. }
  assert (Hc : Forall (fun c => (c =? comma)%N = false) t).
  { revert H. apply Forall_impl. intros c Hc. apply digit_or_dot_class, Hc. }
  assert (Hn : Forall (fun c => dash c = false) t).
  { revert Hd. apply Forall_impl. intros c. apply digit_comma_dot_not_dash. }
  assert (Hs : strip t = t).
  { apply strip_unspaced. revert Hd. apply Forall_impl.
    intros c. apply digit_comma_dot_not_space. }
  rewrite parse_number_plain.
  - unfold digits_and_dots. rewrite Hs, (filter_all _ Hd).
    rewrite (@replace_absent comma t Hc). reflexivity.
  - rewrite Hs, rematch_range_re, (first_range_no_dash Hn). reflexivity.
Qed.

(** X4.  When no range is found in a string, only its digits and dots
    count: taking every other character out (signs, letters, currency
    symbols, commas, blanks) does not change what [parse_number] gives. *)
Theorem parse_number_only_digits (s : str) :
  rematch range_re (strip s) = None ->
  parse_number (PStr (digits_and_dots s)) = parse_number (PStr s).
Proof.
  intros H. rewrite (parse_number_plain repr_container s H).
  apply parse_number_cleaned. apply without_commas, filter_Forall.
Qed.

Lemma add_comm (x y : float) : add x y = add y x.
Proof.
  destruct x as [sx|sx| |sx mx ex], y as [sy|sy| |sy my ey];
    try reflexivity; try (destruct sx, sy; reflexivity).
  unfold add, SFadd. rewrite (Z.min_comm ex ey).
  f_equal. apply Z.add_comm.
Qed.

Lemma is_bound_Forall (b : str) :
  is_bound b = true ->
  b <> [] /\ Forall (fun c => digit_comma_dot c = true) b
  /\ match b with c :: _ => isspace c = false | [] => False end.
Proof.
  destruct b as [|c b]; [discriminate|]. cbn [is_bound]. intros H.
  apply andb_true_iff in H. destruct H as [Hc Hb].
  assert (Hd : digit_comma_dot c = true).
  { unfold digit_comma_dot. unfold digit in Hc. now rewrite Hc. }
  split; [discriminate|]. split.
  - constructor; [exact Hd|]. apply Forall_forall. intros x Hx.
    rewrite forallb_forall in Hb. apply Hb, Hx.
  - apply (digit_comma_dot_not_space c Hd).
Qed.

Lemma first_range_pair (a b : str) (d : char) :
  is_bound a = true -> dash d = true -> is_bound b = true ->
  first_range (strip (a ++ d :: b)) = Some (a, b, []).
Proof.
  intros Ha Hd Hb.
  destruct (is_bound_Forall a Ha) as (_ & _ & Ha0).
  destruct (is_bound_Forall b Hb) as (Hbne & Hbd & _).
  assert (Hs : strip (a ++ d :: b) = a ++ d :: b).
  { apply strip_edges; [exact Ha0 | | discriminate].
    constructor; [apply dash_not_space, Hd|].
    revert Hbd. apply Forall_impl. intros c. apply digit_comma_dot_not_space. }
  rewrite Hs. apply first_range_here.
  pose proof (range_at_here a [] [] b [] d Ha eq_refl Hd eq_refl Hb eq_refl) as H.
  cbn [app dropwhile] in H. rewrite app_nil_r in H. exact H.
Qed.

(** X5.  A range read the other way round gives the same number: for two
    bounds that are numbers, "a-b" and "b-a" have the same result. *)
Theorem parse_number_range_swap (a b : str) (d : char) (x y : float) :
  is_bound a = true -> is_bound b = true -> dash d = true ->
  float_of_str (replace comma [] a) = Some x ->
  float_of_str (replace comma [] b) = Some y ->
  parse_number (PStr (a ++ d :: b)) = parse_number (PStr (b ++ d :: a)).
Proof.
  intros Ha Hb Hd Hx Hy.
  rewrite (parse_number_range repr_container (a ++ d :: b)
             (first_range_pair a b d Ha Hd Hb) Hx Hy).
  rewrite (parse_number_range repr_container (b ++ d :: a)
             (first_range_pair b a d Hb Hd Ha) Hy Hx).
  now rewrite add_comm.
Qed.

End NumberMore.

(** Only the digits and the dot of "about $1,200.50 each" count. *)
Lemma parse_number_only_digits_witness :
  parse_number repr_unused (PStr (lit "1200.50"))
  = parse_number repr_unused (PStr (lit "about $1,200.50 each")).
Proof.
  apply (parse_number_only_digits repr_unused (lit "about $1,200.50 each")).
  vm_compute. reflexivity.
Defined.

(** "1,000-2000" and "2000-1,000" *)
Lemma parse_number_range_swap_witness :
  parse_number repr_unused (PStr (lit "1,000-2000"))
  = parse_number repr_unused (PStr (lit "2000-1,000")).
Proof.
  apply (@parse_number_range_swap repr_unused (lit "1,000") (lit "2000") hyphen
           (PyFloat.of_Z 1000) (PyFloat.of_Z 2000));
    vm_compute; reflexivity.
Defined.

(** ** More on the JSON extractor *)
Section ExtractMore.
Import Json.

(** A greedy star whose continuation fails on every text made of [post]'s
    kind of characters fails on [post]. *)
Lemma star_greedy_none (A : Type) (p : char -> bool) (k : str -> option A)
    (ok : char -> bool) :
  (forall s, forallb ok s = true -> k s = None) ->
  forall s, forallb ok s = true -> star_greedy p s k = None.
Proof.
  intros Hk. induction s as [|c s IH]; intros Hs; cbn [star_greedy].
  - apply Hk, Hs.
  - pose proof Hs as Hs'. cbn [forallb] in Hs'. apply andb_true_iff in Hs'.
    destruct (p c); [rewrite (IH (proj2 Hs'))|]; apply Hk, Hs.
Qed.

(** The greedy star of the brace pattern stops at the last closing brace. *)
Lemma star_greedy_last (A : Type) (k : str -> option A) (last : char)
    (inner post : str) (a : A) :
  k (last :: post) = Some a ->
  (forall s, forallb (fun c => negb (c =? last)%N) s = true -> k s = None) ->
  forallb (fun c => negb (c =? last)%N) post = true ->
  star_greedy any_char (inner ++ last :: post) k = Some a.
Proof.
  intros Ha Hk Hpost. induction inner as [|c inner IH]; cbn [app star_greedy any_char].
  - rewrite (star_greedy_none any_char k _ Hk post Hpost). exact Ha.
  - now rewrite IH.
Qed.

Lemma rematch_braces_span (inner post : str) :
  forallb (fun c => negb (c =? rbrace)%N) post = true ->
  rematch braces_re (lbrace :: inner ++ rbrace :: post)
  = Some {| group0 := lbrace :: inner ++ [rbrace]; groups := []; after := post |}.
Proof.
  intros Hpost. unfold rematch, braces_re. cbn [rmatch].
  change (is_char lbrace lbrace) with true. cbv iota.
  apply star_greedy_last; [| |exact Hpost].
  - change (is_char rbrace rbrace) with true. cbv iota. f_equal. f_equal.
    change (lbrace :: inner ++ rbrace :: post)
      with ((lbrace :: inner) ++ [rbrace] ++ post).
    rewrite app_assoc. apply consumed_app.
  - intros [|c s] Hs; [reflexivity|]. cbn [forallb] in Hs.
    apply andb_true_iff in Hs. destruct Hs as [Hc _].
    apply negb_true_iff in Hc. unfold is_char. now rewrite Hc.
Qed.

Lemma search_here (r : re) (t : str) (m : match_obj) :
  rematch r t = Some m -> search r t = Some m.
Proof. intros H. destruct t; cbn [search]; now rewrite H. Qed.

Lemma search_braces_span (pre inner post : str) :
  forallb (fun c => negb (c =? lbrace)%N) pre = true ->
  forallb (fun c => negb (c =? rbrace)%N) post = true ->
  search braces_re (pre ++ lbrace :: inner ++ rbrace :: post)
  = Some {| group0 := lbrace :: inner ++ [rbrace]; groups := []; after := post |}.
Proof.
  intros Hpre Hpost. induction pre as [|c pre IH].
  - apply search_here, (rematch_braces_span inner post Hpost).
  - cbn [forallb] in Hpre. apply andb_true_iff in Hpre. destruct Hpre as [Hc Hpre].
    cbn [app search].
    assert (Hn : rematch braces_re (c :: pre ++ lbrace :: inner ++ rbrace :: post)
                 = None).
    { unfold rematch, braces_re. cbn [rmatch]. unfold is_char.
      apply negb_true_iff in Hc. now rewrite Hc. }
    rewrite Hn. exact (IH Hpre).
Qed.

Lemma extract_span (pre inner post : str) :
  forallb (fun c => negb (c =? lbrace)%N) pre = true ->
  forallb (fun c => negb (c =? rbrace)%N) post = true ->
  extract_json_from_text (Some (pre ++ lbrace :: inner ++ rbrace :: post))
  = match loads (lbrace :: inner ++ [rbrace]) with
    | Some v => Some v
    | None =>
        loads (Re.sub comma_bracket_re [rbracket]
                 (Re.sub comma_brace_re [rbrace]
                    (replace squote [dquote] (lbrace :: inner ++ [rbrace]))))
    end.
Proof.
  intros Hpre Hpost. unfold extract_json_from_text.
  rewrite (search_braces_span pre inner post Hpre Hpost). cbn [group0].
  destruct (pre ++ lbrace :: inner ++ rbrace :: post) eqn:E; [|reflexivity].
  destruct pre; discriminate.
Qed.

(** X6.  Only the text from the first opening brace to the last closing
    brace counts: whatever stands before the first opening brace and after
    the last closing brace does not change what is extracted. *)
Theorem extract_json_from_text_span (pre inner post : str) :
  forallb (fun c => negb (c =? lbrace)%N) pre = true ->
  forallb (fun c => negb (c =? rbrace)%N) post = true ->
  extract_json_from_text (Some (pre ++ lbrace :: inner ++ rbrace :: post))
  = extract_json_from_text (Some (lbrace :: inner ++ [rbrace])).
Proof.
  intros Hpre Hpost. rewrite (extract_span pre inner post Hpre Hpost).
  symmetry. apply (extract_span [] inner [] eq_refl eq_refl).
Qed.

(** X7.  An object that [json.loads] reads is returned as read, with text
    around it or not: the repairs, which would turn every apostrophe into
    a double quote, are not applied to it. *)
Theorem extract_json_from_text_strict (pre inner post : str) (v : pyval) :
  forallb (fun c => negb (c =? lbrace)%N) pre = true ->
  forallb (fun c => negb (c =? rbrace)%N) post = true ->
  loads (lbrace :: inner ++ [rbrace]) = Some v ->
  extract_json_from_text (Some (pre ++ lbrace :: inner ++ rbrace :: post)) = Some v.
Proof.
  intros Hpre Hpost Hv. rewrite (extract_span pre inner post Hpre Hpost).
  now rewrite Hv.
Qed.

End ExtractMore.

(** The object of "Here you are: {`total`: 5}. Bye" is that of "{`total`: 5}". *)
Lemma extract_json_from_text_span_witness :
  extract_json_from_text (Some (litq "Here you are: {`total`: 5}. Bye"))
  = extract_json_from_text (Some (litq "{`total`: 5}")).
Proof.
  apply (extract_json_from_text_span (lit "Here you are: ") (litq "`total`: 5")
           (lit ". Bye"));
    vm_compute; reflexivity.
Defined.

(** The apostrophe of "it's" is kept. *)
Lemma extract_json_from_text_strict_witness :
  extract_json_from_text (Some (litq "Sure: {`note`: `it's new`} done"))
  = Some (PDict [(lit "note", PStr (lit "it's new"))]).
Proof.
  apply (extract_json_from_text_strict (lit "Sure: ") (litq "`note`: `it's new`")
           (lit " done"));
    vm_compute; reflexivity.
Defined.

(** ** More on the report normaliser and the handler *)
Section HandlerMore.
Import PyFloat PyNum.

Variable repr_container : pyval -> str.
Variable GOOGLE_API_KEY : option str.
Variable MODEL_NAME : str.
Variable GenerativeModel : str -> result unit.
Variables generate_content generate_content' : nat -> str -> result response.

Notation parse_number := (parse_number repr_container).
Notation normalize_item := (normalize_item repr_container).
Notation normalize_category := (normalize_category repr_container).
Notation normalize := (normalize repr_container).
Notation results_try_with gc :=
  (results_try repr_container GOOGLE_API_KEY MODEL_NAME GenerativeModel gc).
Notation results_with gc :=
  (results repr_container GOOGLE_API_KEY MODEL_NAME GenerativeModel gc).

(** *** The items of the report *)

Lemma quantity_of_pos (d : dict) : (1 <= quantity_of d)%Z.
Proof.
  unfold quantity_of. destruct (try_int _) as [q|]; [|lia].
  destruct (q <=? 0)%Z eqn:E; [lia|]. apply Z.leb_gt in E. lia.
Qed.

Lemma report_item_built (n sp : pyval) (q : Z) (x : float) :
  (1 <= q)%Z ->
  report_item
    (PDict [ (lit "name", if truthy n then n else PStr (py_str repr_container n));
             (lit "specs", if truthy sp then sp else PStr []);
             (lit "quantity", PInt q); (lit "price", PFloat x) ]) = true.
Proof.
  intros Hq. cbn [report_item].
  rewrite !(proj2 (eqb_eq _ _) eq_refl). cbn [andb].
  apply Z.leb_le in Hq. rewrite Hq, andb_true_r.
  apply andb_true_iff. split.
  - destruct (truthy n) eqn:E; [now rewrite E | apply orb_true_r].
  - destruct (truthy sp) eqn:E; [now rewrite E | reflexivity].
Qed.

Lemma items_shape (l : list pyval) :
  forall its0 c0 its c,
    for_each normalize_item l (its0, c0) = Ret (its, c) ->
    exists new,
      its = its0 ++ new /\ forallb report_item new = true
      /\ Forall2 (fun up it =>
                    exists d, up = PDict d /\ written_item repr_container d = Ret it)
                 (filter isinstance_dict l) new.
Proof.
  induction l as [|it l IH]; intros its0 c0 its c H.
  - cbn in H. inversion H; subst. exists []. rewrite app_nil_r.
    repeat split. constructor.
  - cbn [for_each] in H.
    destruct it as [| | | | | |d];
      try (cbn [normalize_item bind] in H; cbn [filter isinstance_dict];
           exact (IH _ _ _ _ H)).
    unfold normalize_item in H. fold (quantity_of d) in H.
    destruct (parse_number (get d (lit "price") (PInt 0))) as [p|e] eqn:Ep;
      [|discriminate].
    destruct (float_of_int (quantity_of d)) as [q|e]; [|discriminate].
    cbn [bind] in H.
    destruct (IH _ _ _ _ H) as (new & -> & Hnew & Hall).
    eexists (_ :: new). rewrite <- app_assoc. split; [reflexivity|].
    cbn [forallb filter isinstance_dict].
    rewrite Hnew, (report_item_built _ _ _ (quantity_of_pos d)).
    split; [reflexivity|]. constructor; [|exact Hall].
    exists d. split; [reflexivity|]. unfold written_item. rewrite Ep. reflexivity.
Qed.

(** X8.  When the normaliser returns, the items of each category are those
    of the upstream list that are mappings, one for one and in order (the
    others are left out).  Each is written with the four fields name,
    specs, quantity and price: the upstream name, or its [str] when it is
    falsy; the upstream specs, or the empty string; the upstream quantity
    when [int()] reads it and it is positive, and 1 otherwise; the upstream
    price as [parse_number] reads it, rounded to two decimals. *)
Theorem normalize_items_shape (d : dict) (cats : list category) (total : float) :
  normalize (PDict d) = Ret (cats, total) ->
  Forall2 (fun kp c =>
             exists l its,
               iterate (items_of (block_of d (fst kp))) = Ret l
               /\ items c = PList its
               /\ Forall2 (fun up it =>
                             exists d', up = PDict d'
                                        /\ written_item repr_container d' = Ret it)
                          (filter isinstance_dict l) its
               /\ forallb report_item its = true
               /\ List.length its = List.length (filter isinstance_dict l))
          CATEGORY_KEYS cats.
Proof.
  intros H. destruct (@normalize_unfold repr_container d cats total H)
    as (outs & Hall & -> & _).
  clear H. induction Hall as [|kp cn kps outs Hstep _ IH]; [constructor|].
  cbn [map]. constructor; [|exact IH].
  destruct Hstep as (l & its & computed & Hl & Hf & _ & Hc).
  destruct (items_shape l [] zero Hf) as (new & Hits & Hnew & Hup).
  cbn [app] in Hits. subst new.
  exists l, its. rewrite Hc. cbn [items].
  repeat split; try assumption. symmetry. exact (Forall2_length Hup).
Qed.

(** *** The keys that are read *)

Lemma dict_get_relevant (d : dict) (k : str) :
  existsb (PyStr.eqb k) read_keys = true ->
  dict_get (relevant d) k = dict_get d k.
Proof.
  intros Hk. induction d as [|[k' v] d IH]; [reflexivity|].
  unfold relevant in *. cbn [filter fst dict_get].
  destruct (existsb (PyStr.eqb k') read_keys) eqn:E.
  - cbn [dict_get]. now rewrite IH.
  - rewrite IH. destruct (PyStr.eqb k' k) eqn:Ek; [|reflexivity].
    apply eqb_eq in Ek. subst k'. rewrite Hk in E. discriminate.
Qed.

Lemma for_each_ext (S A : Type) (f g : A -> S -> result S) (l : list A) :
  (forall a, In a l -> forall st, f a st = g a st) ->
  forall st, for_each f l st = for_each g l st.
Proof.
  induction l as [|a l IH]; intros H st; [reflexivity|].
  cbn [for_each]. rewrite (H a (or_introl eq_refl)).
  destruct (g a st) as [st'|e]; [|reflexivity].
  cbn [bind]. apply IH. intros a' Ha'. apply H. right. exact Ha'.
Qed.

(** X9.  The normaliser reads six keys of the response, the five category
    keys and "grand_total": what the response holds under any other key
    does not change the report. *)
Theorem normalize_reads_six_keys (d : dict) :
  normalize (PDict (relevant d)) = normalize (PDict d).
Proof.
  unfold normalize.
  rewrite (for_each_ext (normalize_category (PDict (relevant d)))
             (normalize_category (PDict d))).
  - cbn [py_get]. unfold get.
    rewrite (dict_get_relevant d (lit "grand_total")) by reflexivity.
    reflexivity.
  - intros [k pretty] Hin [cats total]. unfold normalize_category.
    cbn [py_get]. unfold get at 1 4.
    rewrite (dict_get_relevant d k); [reflexivity|].
    apply existsb_exists. exists k. split; [|now apply eqb_eq].
    right. apply in_map_iff. exists (k, pretty). auto.
Qed.

(** *** The page *)

Lemma results_try_page (form : list (str * str)) (pg : page) :
  results_try_with generate_content form = Ret pg ->
  product_name pg = form_product form /\ place pg = form_place form
  /\ currency pg = detect_currency_code (form_place form)
  /\ error pg = None.
Proof.
  unfold results_try. cbv zeta.
  destruct GOOGLE_API_KEY as [[|c k]|]; cbn [bind]; try discriminate.
  destruct (GenerativeModel MODEL_NAME); cbn [bind]; [|discriminate].
  destruct (generate_content 0 _) as [resp|]; cbn [bind]; [|discriminate].
  match goal with
  | |- bind ?c _ = _ -> _ => destruct c as [data|]; cbn [bind]; [|discriminate]
  end.
  match goal with
  | |- bind (normalize ?v) _ = _ -> _ =>
      destruct (normalize v) as [r|] eqn:E; cbn [bind]; [|discriminate]
  end.
  intros H. inversion H; subst. cbn. auto.
Qed.

(** X10.  Whatever the model client does, the page carries the product and
    the place that were submitted and the currency code detected for the
    place, and it carries an error message exactly when something in the
    [try] block raised. *)
Theorem results_page_echo (form : list (str * str)) :
  product_name (results_with generate_content form) = form_product form
  /\ place (results_with generate_content form) = form_place form
  /\ currency (results_with generate_content form)
     = detect_currency_code (form_place form)
  /\ (error (results_with generate_content form) = None
      <-> returns (results_try_with generate_content form) = true).
Proof.
  unfold results. destruct (results_try_with generate_content form) as [pg|e] eqn:E.
  - destruct (results_try_page _ E) as (H1 & H2 & H3 & H4).
    repeat split; auto.
  - cbn. repeat split; discriminate.
Qed.

(** X11.  When a JSON object that is not empty is recovered from the first
    response, no corrective request is made: the page is the same whatever
    a second call would return. *)
Theorem results_single_request (form : list (str * str)) (resp : response) :
  let prompt :=
    build_structured_prompt (form_product form) (form_place form)
      (detect_currency_code (form_place form)) in
  generate_content 0 prompt = Ret resp ->
  generate_content' 0 prompt = Ret resp ->
  falsy (extract_json_from_text (response_to_text resp)) = false ->
  results_with generate_content form = results_with generate_content' form.
Proof.
  intros prompt H H' Hf. subst prompt.
  unfold results, results_try. cbv zeta.
  destruct GOOGLE_API_KEY as [[|c k]|]; cbn [bind]; try reflexivity.
  destruct (GenerativeModel MODEL_NAME); cbn [bind]; [|reflexivity].
  rewrite H, H'. cbn [bind]. rewrite Hf. reflexivity.
Qed.

End HandlerMore.

(** The items of a response with one item and a block that is a number. *)
Lemma normalize_items_shape_witness :
  exists cats total,
    normalize repr_unused (PDict one_item) = Ret (cats, total)
    /\ Forall2 (fun kp c =>
                  exists l its,
                    iterate (items_of (block_of one_item (fst kp))) = Ret l
                    /\ items c = PList its
                    /\ Forall2 (fun up it =>
                                  exists d', up = PDict d'
                                             /\ written_item repr_unused d' = Ret it)
                               (filter isinstance_dict l) its
                    /\ forallb report_item its = true
                    /\ List.length its = List.length (filter isinstance_dict l))
               CATEGORY_KEYS cats.
Proof.
  destruct (normalize repr_unused (PDict one_item)) as [[cats total]|e] eqn:E;
    [|vm_compute in E; discriminate].
  exists cats, total. split; [reflexivity|].
  exact (@normalize_items_shape repr_unused one_item cats total E).
Defined.

(** A first response that holds an object: a failing second call is never
    seen. *)
Lemma results_single_request_witness :
  results repr_unused (Some (lit "key")) (lit "gemini-pro") (fun _ => Ret tt)
    (fun n _ => match n with
                | O => Ret json_response
                | _ => Raise (Exn UpstreamError (lit "quota exceeded"))
                end)
    example_form
  = results repr_unused (Some (lit "key")) (lit "gemini-pro") (fun _ => Ret tt)
      (fun _ _ => Ret json_response) example_form.
Proof.
  apply (@results_single_request repr_unused (Some (lit "key")) (lit "gemini-pro")
           (fun _ => Ret tt)
           (fun n _ => match n with
                       | O => Ret json_response
                       | _ => Raise (Exn UpstreamError (lit "quota exceeded"))
                       end)
           (fun _ _ => Ret json_response) example_form json_response);
    vm_compute; reflexivity.
Defined.

(** ** The prompt *)
Section PromptFacts.

Lemma contains_left (x a b : str) :
  contains x a = true -> contains x (a ++ b) = true.
Proof.
  rewrite !contains_app. intros (pre & post & ->).
  exists pre, (post ++ b). now rewrite <- !app_assoc.
Qed.

Lemma contains_right (x a b : str) :
  contains x b = true -> contains x (a ++ b) = true.
Proof.
  rewrite !contains_app. intros (pre & post & ->).
  exists (a ++ pre), post. now rewrite <- !app_assoc.
Qed.

(** A text that starts where the literal [c] ends. *)
Ltac straddle k :=
  match goal with
  | |- contains _ (?c ++ _) = true =>
      rewrite contains_app;
      exists (firstn (List.length c - List.length k) c); eexists;
      rewrite <- !app_assoc; reflexivity
  end.

(** X12.  The prompt asks for what the normaliser reads: its schema names
    each of the five category keys with an items list, and "grand_total";
    and it carries the currency code, the product and the place as they
    are, between double quotes. *)
Theorem build_structured_prompt_mentions (product place currency_code : str) :
  let prompt := build_structured_prompt product place currency_code in
  (forall kp, In kp CATEGORY_KEYS ->
     contains (dquote :: fst kp ++ litq "`: { `items`: [") prompt = true)
  /\ contains (litq "`grand_total`: 0") prompt = true
  /\ contains (litq "`currency`: `" ++ currency_code ++ [dquote]) prompt = true
  /\ contains (litq "For product `" ++ product ++ litq "` and market `"
                 ++ place ++ [dquote]) prompt = true.
Proof.
  cbv zeta. unfold build_structured_prompt. cbv zeta. repeat split.
  - intros kp Hin. do 3 apply contains_right. apply contains_left.
    cbn [In CATEGORY_KEYS] in Hin.
    repeat (destruct Hin as [<-|Hin]; [vm_compute; reflexivity|]).
    destruct Hin.
  - do 4 apply contains_right. apply contains_left. vm_compute. reflexivity.
  - straddle (litq "`currency`: `").
  - do 4 apply contains_right. straddle (litq "For product `").
Qed.

End PromptFacts.

(** ** The suggestions *)
Section AutocompleteFacts.

Variable str_lower : str -> str.
Variable get_by_name : str -> result http_response.
Variable get_all : result http_response.

Notation collect := (collect str_lower).
Notation by_name := (by_name str_lower get_by_name).
Notation from_all := (from_all str_lower get_all).
Notation autocomplete := (autocomplete str_lower get_by_name get_all).
Notation lowered := (lowered str_lower).

(** *** The order of the sort *)

Lemma str_compare_antisym (a : str) :
  forall b, str_compare b a = CompOpp (str_compare a b).
Proof.
  induction a as [|x a IH]; intros [|y b]; try reflexivity.
  cbn [str_compare]. rewrite (N.compare_antisym x y).
  destruct (x ?= y)%N; cbn [CompOpp]; auto.
Qed.

Lemma str_compare_trans (a : str) :
  forall b c, str_compare a b <> Gt -> str_compare b c <> Gt ->
              str_compare a c <> Gt.
Proof.
  induction a as [|x a IH]; intros [|y b] [|z c]; cbn [str_compare];
    try congruence.
  destruct (N.compare_spec x y) as [->|Hxy|Hxy]; try congruence.
  - destruct (y ?= z)%N; try congruence. apply IH.
  - intros _. destruct (N.compare_spec y z) as [->|Hyz|Hyz]; try congruence.
    + intros _. apply N.compare_lt_iff in Hxy. now rewrite Hxy.
    + intros _. assert (H : (x < z)%N) by lia.
      apply N.compare_lt_iff in H. now rewrite H.
Qed.

Lemma key_leb_total (a b : nat * str) : key_leb a b = false -> key_leb b a = true.
Proof.
  unfold key_leb. rewrite (Nat.compare_antisym (fst a) (fst b)).
  rewrite (str_compare_antisym (snd a) (snd b)).
  destruct (fst a ?= fst b)%nat; cbn [CompOpp]; try congruence.
  destruct (str_compare (snd a) (snd b)); cbn [CompOpp]; congruence.
Qed.

Lemma key_leb_trans (a b c : nat * str) :
  key_leb a b = true -> key_leb b c = true -> key_leb a c = true.
Proof.
  unfold key_leb.
  destruct (Nat.compare_spec (fst a) (fst b)) as [Hab|Hab|Hab]; try discriminate;
    destruct (Nat.compare_spec (fst b) (fst c)) as [Hbc|Hbc|Hbc]; try discriminate;
    intros H1 H2.
  - rewrite Hab, Hbc, Nat.compare_refl.
    pose proof (@str_compare_trans (snd a) (snd b) (snd c)) as Ht.
    destruct (str_compare (snd a) (snd b)); try discriminate;
      destruct (str_compare (snd b) (snd c)); try discriminate;
      destruct (str_compare (snd a) (snd c)); try reflexivity;
      exfalso; apply Ht; congruence.
  - assert (H : (fst a < fst c)%nat) by lia.
    apply Nat.compare_lt_iff in H. now rewrite H.
  - assert (H : (fst a < fst c)%nat) by lia.
    apply Nat.compare_lt_iff in H. now rewrite H.
  - assert (H : (fst a < fst c)%nat) by lia.
    apply Nat.compare_lt_iff in H. now rewrite H.
Qed.

(** *** The sort *)

Lemma firstn_In (A : Type) (n : nat) (x : A) (l : list A) : In x (firstn n l) -> In x l.
Proof.
  revert n. induction l as [|y l IH]; intros [|n]; cbn [firstn In]; try tauto.
  intros [->|H]; [left; reflexivity | right; exact (IH n H)].
Qed.

Section Sort.
Variables A K : Type.
Variable leb : K -> K -> bool.
Variable f : A -> K.
Hypothesis leb_total : forall a b, leb a b = false -> leb b a = true.
Hypothesis leb_trans : forall a b c, leb a b = true -> leb b c = true -> leb a c = true.

Let before (x y : A) : Prop := leb (f x) (f y) = true.

Lemma insert_by_In (a x : A) (l : list A) :
  In x (insert_by leb f a l) <-> x = a \/ In x l.
Proof.
  induction l as [|y l IH]; cbn [insert_by In].
  - intuition congruence.
  - destruct (leb (f a) (f y)); cbn [In]; [intuition congruence|].
    rewrite IH. intuition congruence.
Qed.

Lemma sort_by_In (x : A) (l : list A) : In x (sort_by leb f l) <-> In x l.
Proof.
  induction l as [|a l IH]; [reflexivity|].
  unfold sort_by in *. cbn [fold_right In]. rewrite insert_by_In, IH.
  intuition congruence.
Qed.

Lemma insert_by_sorted (a : A) (l : list A) :
  StronglySorted before l -> StronglySorted before (insert_by leb f a l).
Proof.
  induction 1 as [|y l Hl IH Hy]; cbn [insert_by].
  - constructor; constructor.
  - destruct (leb (f a) (f y)) eqn:E.
    + constructor; [constructor; assumption|].
      constructor; [exact E|].
      revert Hy. apply Forall_impl. intros z Hz. exact (leb_trans E Hz).
    + constructor; [exact IH|].
      apply Forall_forall. intros z Hz. apply insert_by_In in Hz.
      destruct Hz as [->|Hz]; [exact (leb_total E)|].
      rewrite Forall_forall in Hy. exact (Hy z Hz).
Qed.

Lemma sort_by_sorted (l : list A) : StronglySorted before (sort_by leb f l).
Proof.
  induction l as [|a l IH]; [constructor|].
  unfold sort_by in *. cbn [fold_right]. apply insert_by_sorted, IH.
Qed.

Lemma firstn_sorted (n : nat) (l : list A) :
  StronglySorted before l -> StronglySorted before (firstn n l).
Proof.
  intros H. revert n. induction H as [|y l Hl IH Hy]; intros [|n];
    cbn [firstn]; try constructor.
  - apply IH.
  - apply Forall_forall. intros z Hz. rewrite Forall_forall in Hy.
    apply Hy. exact (@firstn_In _ n z l Hz).
Qed.

End Sort.

(** *** The first loop *)

Lemma collect_step (c : pyval) (res res' : list suggestion) (seen seen' : list str) :
  collect c (res, seen) = Ret (res', seen') ->
  (res' = res /\ seen' = seen)
  \/ exists s cc,
       s <> [] /\ existsb (PyStr.eqb (str_lower s)) seen = false
       /\ res' = res ++ [ {| display_name := s; country_code := cc |} ]
       /\ seen' = str_lower s :: seen.
Proof.
  unfold collect.
  destruct (common_name c) as [name|e]; [|discriminate]. cbn [bind].
  destruct (py_get c (lit "cca2") (PStr [])) as [cc|e]; [|discriminate].
  cbn [bind]. destruct (truthy name) eqn:Et.
  - destruct name as [| | | |s| |]; try discriminate. cbn [lower_of bind].
    destruct (existsb (PyStr.eqb (str_lower s)) seen) eqn:E;
      intros H; inversion H; subst; [left; auto|].
    right. exists s, cc. repeat split; try assumption.
    intros ->. discriminate Et.
  - intros H; inversion H; subst. left; auto.
Qed.

Lemma NoDup_snoc (B : Type) (l : list B) (a : B) :
  NoDup l -> ~ In a l -> NoDup (l ++ [a]).
Proof.
  induction 1 as [|x l Hx Hl IH]; intros Ha; cbn [app].
  - constructor; [intros []|constructor].
  - constructor.
    + rewrite in_app_iff. cbn [In]. intros [H|[H|[]]]; [exact (Hx H)|].
      apply Ha. left. symmetry. exact H.
    + apply IH. intros H. apply Ha. right. exact H.
Qed.

Lemma collect_loop (l : list pyval) :
  forall res seen res' seen',
    for_each collect l (res, seen) = Ret (res', seen') ->
    NoDup (map lowered res) ->
    (forall x, In x (map lowered res) -> In x seen) ->
    Forall (fun x => display_name x <> []) res ->
    NoDup (map lowered res')
    /\ Forall (fun x => display_name x <> []) res'.
Proof.
  induction l as [|c l IH]; intros res seen res' seen' H Hnd Hseen Hne.
  - cbn in H. inversion H; subst. auto.
  - cbn [for_each] in H.
    destruct (collect c (res, seen)) as [[res1 seen1]|e] eqn:E; [|discriminate].
    cbn [bind] in H.
    destruct (collect_step _ _ _ E) as [[-> ->]|(s & cc & Hs & Hin & -> & ->)].
    + exact (IH _ _ _ _ H Hnd Hseen Hne).
    + apply (IH _ _ _ _ H).
      * rewrite map_app. cbn [map]. apply NoDup_snoc; [exact Hnd|].
        intros Hx. apply Hseen in Hx.
        assert (Ht : existsb (PyStr.eqb (str_lower s)) seen = true).
        { apply existsb_exists. exists (str_lower s). split; [exact Hx|].
          now apply eqb_eq. }
        unfold lowered in Ht. cbn [display_name] in Ht.
        rewrite Ht in Hin. discriminate.
      * intros x. rewrite map_app, in_app_iff. cbn [map In].
        intros [Hx|[Hx|[]]]; [right; exact (Hseen x Hx) | left; exact Hx].
      * apply Forall_app. split; [exact Hne|]. constructor; [exact Hs|constructor].
Qed.

Lemma by_name_some (q : str) (r : list suggestion) :
  by_name q = Ret (Some r) ->
  exists l res seen,
    for_each collect l ([], []) = Ret (res, seen) /\ r = firstn 12 res.
Proof.
  unfold by_name.
  destruct (get_by_name q) as [resp|e]; [|discriminate]. cbn [bind].
  destruct (status_code resp =? 200)%Z; [|discriminate].
  destruct (json resp) as [arr|e]; [|discriminate]. cbn [bind].
  destruct (iterate arr) as [l|e]; [|discriminate]. cbn [bind].
  destruct (for_each collect l ([], [])) as [[res seen]|e] eqn:E; [|discriminate].
  cbn [bind fst]. intros H. inversion H; subst. eauto.
Qed.

(** *** The second loop *)

Lemma keep_matching_loop (qlow : str) (l : list pyval) :
  forall filtered filtered',
    for_each (keep_matching str_lower qlow) l filtered = Ret filtered' ->
    Forall (fun x => contains qlow (lowered x) = true) filtered ->
    Forall (fun x => contains qlow (lowered x) = true) filtered'.
Proof.
  induction l as [|c l IH]; intros filtered filtered' H Hf.
  - cbn in H. inversion H; subst. exact Hf.
  - cbn [for_each] in H.
    destruct (keep_matching str_lower qlow c filtered) as [f1|e] eqn:E;
      [|discriminate].
    cbn [bind] in H. apply (IH _ _ H). clear H IH.
    unfold keep_matching in E.
    destruct (common_name c) as [name|e]; [|discriminate]. cbn [bind] in E.
    destruct (py_get c (lit "cca2") (PStr [])) as [cc|e]; [|discriminate].
    cbn [bind] in E. destruct (truthy name).
    + destruct name as [| | | |s| |]; try discriminate. cbn [lower_of bind] in E.
      destruct (contains qlow (str_lower s)) eqn:Ec; inversion E; subst;
        [|exact Hf].
      apply Forall_app. split; [exact Hf|]. constructor; [exact Ec|constructor].
    + inversion E; subst. exact Hf.
Qed.

Lemma from_all_ret (q : str) (r : list suggestion) :
  from_all q = Ret r ->
  exists l filtered,
    for_each (keep_matching str_lower (str_lower q)) l [] = Ret filtered
    /\ r = firstn 12 (sort_by key_leb (sort_key str_lower (str_lower q)) filtered).
Proof.
  unfold from_all.
  destruct get_all as [resp|e]; [|discriminate]. cbn [bind].
  destruct (json resp) as [arr|e]; [|discriminate]. cbn [bind]. cbv zeta.
  destruct (iterate arr) as [l|e]; [|discriminate]. cbn [bind].
  destruct (for_each _ l []) as [filtered|e] eqn:E; [|discriminate].
  cbn [bind]. intros H. inversion H; subst. eauto.
Qed.

(** *** An entry that is not a mapping *)

Lemma collect_not_dict (c : pyval) (st : list suggestion * list str) :
  isinstance_dict c = false -> exists e, collect c st = Raise e.
Proof.
  destruct st as [res seen].
  destruct c; try discriminate; intros _; cbn; eexists; reflexivity.
Qed.

Lemma for_each_raises (S A : Type) (body : A -> S -> result S) (l : list A) :
  Exists (fun a => forall st, exists e, body a st = Raise e) l ->
  forall st, exists e, for_each body l st = Raise e.
Proof.
  induction 1 as [a l Ha|a l _ IH]; intros st; cbn [for_each].
  - destruct (Ha st) as [e ->]. exists e. reflexivity.
  - destruct (body a st) as [st'|e]; cbn [bind]; [apply IH | eauto].
Qed.

(** X13.  [autocomplete] gives twelve suggestions at most, and none when
    the query is blank. *)
Theorem autocomplete_at_most_12 (args : list (str * str)) :
  (List.length (autocomplete args) <= 12)%nat
  /\ (query args = [] -> autocomplete args = []).
Proof.
  unfold autocomplete. split; [|now intros ->].
  destruct (query args) as [|c q]; [cbn; lia|].
  destruct (by_name (c :: q)) as [[r|]|e] eqn:E.
  - destruct (by_name_some _ E) as (l & res & seen & _ & ->).
    apply firstn_le_length.
  - destruct (from_all (c :: q)) as [r|e] eqn:E2; [|cbn; lia].
    destruct (from_all_ret _ E2) as (l & filtered & _ & ->).
    apply firstn_le_length.
  - destruct (from_all (c :: q)) as [r|e2] eqn:E2; [|cbn; lia].
    destruct (from_all_ret _ E2) as (l & filtered & _ & ->).
    apply firstn_le_length.
Qed.

(** X14.  When the search by name answers (status 200, a list the loop
    gets through), the suggestions are its names without repetition: no
    two of them are the same once lowered, and none is empty. *)
Theorem autocomplete_distinct (args : list (str * str)) (r : list suggestion) :
  query args <> [] ->
  by_name (query args) = Ret (Some r) ->
  autocomplete args = r
  /\ NoDup (map lowered r)
  /\ Forall (fun x => display_name x <> []) r.
Proof.
  intros Hq H. split.
  - unfold autocomplete. destruct (query args); [now destruct Hq|].
    now rewrite H.
  - destruct (by_name_some _ H) as (l & res & seen & Hl & ->).
    destruct (@collect_loop l [] [] res seen Hl) as [Hnd Hne];
      [constructor | intros x [] | constructor |].
    split.
    + rewrite <- (firstn_skipn 12 res), map_app in Hnd.
      exact (NoDup_app_remove_r _ _ Hnd).
    + rewrite <- (firstn_skipn 12 res) in Hne.
      apply Forall_app in Hne. exact (proj1 Hne).
Qed.

(** X15.  When the search by name gives no list and the list of all
    countries is read, every suggestion holds the lowered query in its
    lowered name, and the suggestions are in the order of the sort key:
    the names that start with the query first, and by name within each
    group. *)
Theorem autocomplete_sorted (args : list (str * str)) (r : list suggestion) :
  query args <> [] ->
  (by_name (query args) = Ret None \/ exists e, by_name (query args) = Raise e) ->
  from_all (query args) = Ret r ->
  autocomplete args = r
  /\ Forall (fun x => contains (str_lower (query args)) (lowered x) = true) r
  /\ StronglySorted
       (fun a b =>
          key_leb (sort_key str_lower (str_lower (query args)) a)
                  (sort_key str_lower (str_lower (query args)) b) = true) r.
Proof.
  intros Hq Hn H. split.
  - unfold autocomplete. destruct (query args); [now destruct Hq|].
    destruct Hn as [->|[e ->]]; now rewrite H.
  - destruct (from_all_ret _ H) as (l & filtered & Hl & ->).
    pose proof (@keep_matching_loop _ l [] _ Hl (Forall_nil _)) as Hc.
    split.
    + apply Forall_forall. intros x Hx. rewrite Forall_forall in Hc.
      apply Hc. pose proof (@firstn_In _ 12 x _ Hx) as Hx'.
      exact (proj1 (@sort_by_In _ _ key_leb _ x filtered) Hx').
    + apply firstn_sorted, sort_by_sorted.
      * apply key_leb_total.
      * apply key_leb_trans.
Qed.

(** X16.  One entry that is not a mapping in the answer of the search by
    name makes the handler drop every name it gathered from that answer:
    the suggestions are then those built from the list of all countries,
    or none when that fails too. *)
Theorem autocomplete_bad_entry (args : list (str * str)) (resp : http_response)
    (arr : pyval) (l : list pyval) :
  get_by_name (query args) = Ret resp ->
  status_code resp = 200%Z ->
  json resp = Ret arr ->
  iterate arr = Ret l ->
  existsb (fun c => negb (isinstance_dict c)) l = true ->
  autocomplete args =
  match query args with
  | [] => []
  | q => match from_all q with Ret r => r | Raise _ => [] end
  end.
Proof.
  intros Hresp Hs Harr Hl Hbad. unfold autocomplete.
  destruct (query args) as [|c q] eqn:Eq; [reflexivity|].
  assert (Hr : exists e, by_name (c :: q) = Raise e).
  { unfold by_name. rewrite Hresp. cbn [bind]. rewrite Hs. cbn [Z.eqb Pos.eqb].
    rewrite Harr. cbn [bind]. rewrite Hl. cbn [bind].
    destruct (@for_each_raises _ _ collect l) with (st := ([] : list suggestion, [] : list str))
      as [e He].
    - apply existsb_exists in Hbad. destruct Hbad as (x & Hx & Hxd).
      apply Exists_exists. exists x. split; [exact Hx|].
      intros st. apply collect_not_dict. now apply negb_true_iff in Hxd.
    - rewrite He. cbn [bind]. eauto. }
  destruct Hr as [e ->]. reflexivity.
Qed.

End AutocompleteFacts.

(** The names of a search for " oman ": "oman" repeats "Oman" and is left
    out. *)
Lemma autocomplete_distinct_witness :
  autocomplete lower (fun _ => Ret (ok_response countries))
    (Raise (Exn UpstreamError (lit "timed out"))) [ (lit "q", lit " oman ") ]
  = [ {| display_name := lit "Oman"; country_code := PStr (lit "OM") |};
      {| display_name := lit "Romania"; country_code := PStr (lit "RO") |};
      {| display_name := lit "Germany"; country_code := PStr (lit "DE") |} ].
Proof.
  apply (@autocomplete_distinct lower (fun _ => Ret (ok_response countries))
           (Raise (Exn UpstreamError (lit "timed out")))
           [ (lit "q", lit " oman ") ]).
  - vm_compute. discriminate.
  - vm_compute. reflexivity.
Defined.

(** The search by name answers 404 and the list of all countries is
    filtered: "Oman" and "oman" start with the query, "Romania" holds it. *)
Lemma autocomplete_sorted_witness :
  autocomplete lower (fun _ => Ret not_found) (Ret (ok_response countries))
    [ (lit "q", lit "oman") ]
  = [ {| display_name := lit "Oman"; country_code := PStr (lit "OM") |};
      {| display_name := lit "oman"; country_code := PStr (lit "XX") |};
      {| display_name := lit "Romania"; country_code := PStr (lit "RO") |} ].
Proof.
  apply (@autocomplete_sorted lower (fun _ => Ret not_found)
           (Ret (ok_response countries)) [ (lit "q", lit "oman") ]).
  - vm_compute. discriminate.
  - left. vm_compute. reflexivity.
  - vm_compute. reflexivity.
Defined.

(** "Oman" is gathered from the search by name, then a string is met: the
    answer comes from the list of all countries. *)
Lemma autocomplete_bad_entry_witness :
  autocomplete lower
    (fun _ => Ret (ok_response (PList [ country "Oman" "OM"; PStr (lit "oops") ])))
    (Ret (ok_response countries)) [ (lit "q", lit "ger") ]
  = [ {| display_name := lit "Germany"; country_code := PStr (lit "DE") |} ].
Proof.
  apply (@autocomplete_bad_entry lower
           (fun _ => Ret (ok_response (PList [ country "Oman" "OM"; PStr (lit "oops") ])))
           (Ret (ok_response countries)) [ (lit "q", lit "ger") ]
           (ok_response (PList [ country "Oman" "OM"; PStr (lit "oops") ]))
           (PList [ country "Oman" "OM"; PStr (lit "oops") ])
           [ country "Oman" "OM"; PStr (lit "oops") ]);
    reflexivity.
Defined.
